(** * gh-repo-review: record model, filter/sort engine and TUI state machine

    A shallow embedding of [internal/repo/repo.go], the record construction
    of [internal/gh/client.go], the cache read of [internal/cache/cache.go]
    and the update loop of [internal/tui/model.go], followed by the
    properties of the design document that are stated about them and by
    further properties read off the code.

    Conventions.
    - Go [int] values are [Z]; arithmetic whose operands are not bounded by
      a slice length is wrapped to 64 bits with [int64].
    - A [time.Time] is the instant it denotes, as an offset from the zero
      time [time.Time{}]; [Before]/[After] compare instants.
    - Go strings are [string] (byte sequences); [<] and [>] on them are the
      bytewise lexicographic order [String.ltb].
    - A slice is the [list] of its elements.  Where the code tests a slice
      against [nil] the value is an [option (list _)], [None] being [nil].
    - Functions of Go's standard library and of the bubbles widgets that the
      code calls but does not define are the fields of [Runtime]. *)

From Stdlib Require Import ZArith String Ascii List Bool Lia Permutation Sorted.
From stdpp Require Import base list gmap strings pretty.

Local Open Scope string_scope.
Local Open Scope list_scope.
Local Open Scope Z_scope.

(** Instants. *)
Definition Time := Z.
Definition time_zero : Time := 0.
Definition time_Before (t u : Time) : bool := t <? u.
Definition time_After (t u : Time) : bool := u <? t.

(** Two's complement wrap-around of a Go [int] on a 64-bit platform. *)
Definition int64 (z : Z) : Z := (z + 2 ^ 63) mod 2 ^ 64 - 2 ^ 63.

(** [len(s)] as a Go [int]. *)
Definition len {A} (l : list A) : Z := Z.of_nat (length l).

(** [len(s)] of a string: its number of bytes. *)
Definition len_string (s : string) : Z := Z.of_nat (String.length s).

(** Library functions the program calls. *)
Class Runtime := {
  (* strings.EqualFold: equality under Unicode simple case folding *)
  strings_EqualFold : string -> string -> bool;
  (* strings.ToLower *)
  strings_ToLower : string -> string;
  (* t.AddDate(0, 0, days) *)
  time_AddDays : Time -> Z -> Time;
  (* time.Parse(time.RFC3339, s), the zero time when parsing fails *)
  time_ParseRFC3339 : string -> Time;
  (* the value of a textinput.Model after it handled a key *)
  textinput_Update : string -> string -> string
}.

(** strings.Contains: [substr] occurs in [s] as a contiguous byte run. *)
Fixpoint strings_Contains (s substr : string) : bool :=
  if String.prefix substr s then true
  else match s with
       | EmptyString => false
       | String _ s' => strings_Contains s' substr
       end.

(** strings.Join(parts, sep). *)
Fixpoint strings_Join (parts : list string) (sep : string) : string :=
  match parts with
  | [] => ""
  | [p] => p
  | p :: rest => p +:+ sep +:+ strings_Join rest sep
  end.

(** The slice expression [s[:n]] of a string, for [0 <= n <= len(s)]. *)
Definition string_prefix (n : nat) (s : string) : string := substring 0 n s.

(** ** internal/repo/repo.go *)
Module repo.

Record Repo := {
  Name : string;
  FullName : string;
  Description : string;
  URL : string;
  SSHURL : string;
  IsPrivate : bool;
  IsArchived : bool;
  IsFork : bool;
  IsTemplate : bool;
  StargazerCount : Z;
  ForkCount : Z;
  OpenIssuesCount : Z;
  PrimaryLanguage : string;
  CreatedAt : Time;
  UpdatedAt : Time;
  PushedAt : Time;
  DiskUsage : Z;
  Selected : bool
}.

(** [r.Selected = b] and [r.IsArchived = b] on a record value. *)
Definition set_Selected (b : bool) (r : Repo) : Repo :=
  {| Name := Name r; FullName := FullName r; Description := Description r;
     URL := URL r; SSHURL := SSHURL r; IsPrivate := IsPrivate r;
     IsArchived := IsArchived r; IsFork := IsFork r;
     IsTemplate := IsTemplate r; StargazerCount := StargazerCount r;
     ForkCount := ForkCount r; OpenIssuesCount := OpenIssuesCount r;
     PrimaryLanguage := PrimaryLanguage r; CreatedAt := CreatedAt r;
     UpdatedAt := UpdatedAt r; PushedAt := PushedAt r;
     DiskUsage := DiskUsage r; Selected := b |}.

Definition set_IsArchived (b : bool) (r : Repo) : Repo :=
  {| Name := Name r; FullName := FullName r; Description := Description r;
     URL := URL r; SSHURL := SSHURL r; IsPrivate := IsPrivate r;
     IsArchived := b; IsFork := IsFork r;
     IsTemplate := IsTemplate r; StargazerCount := StargazerCount r;
     ForkCount := ForkCount r; OpenIssuesCount := OpenIssuesCount r;
     PrimaryLanguage := PrimaryLanguage r; CreatedAt := CreatedAt r;
     UpdatedAt := UpdatedAt r; PushedAt := PushedAt r;
     DiskUsage := DiskUsage r; Selected := Selected r |}.

Inductive SortField :=
  | SortByName | SortByUpdated | SortByCreated
  | SortByStars | SortByForks | SortBySize.

Record FilterOptions := {
  ShowArchived : bool;
  ShowPrivate : bool;
  ShowPublic : bool;
  ShowForks : bool;
  Language : string;
  MinStars : Z;
  MaxStars : Z;
  InactiveForDays : Z;
  SearchQuery : string;
  SortBy : SortField;
  SortDesc : bool
}.

Definition DefaultFilterOptions : FilterOptions :=
  {| ShowArchived := false; ShowPrivate := true; ShowPublic := true;
     ShowForks := true; Language := ""; MinStars := -1; MaxStars := -1;
     InactiveForDays := 0; SearchQuery := "";
     SortBy := SortByUpdated; SortDesc := true |}.

(** Assignments to single fields of an options value. *)
Definition set_ShowArchived (x : bool) (o : FilterOptions) : FilterOptions :=
  {| ShowArchived := x; ShowPrivate := ShowPrivate o; ShowPublic :=
     ShowPublic o; ShowForks := ShowForks o; Language := Language o;
     MinStars := MinStars o; MaxStars := MaxStars o; InactiveForDays :=
     InactiveForDays o; SearchQuery := SearchQuery o; SortBy := SortBy o;
     SortDesc := SortDesc o |}.

Definition set_ShowPrivate (x : bool) (o : FilterOptions) : FilterOptions :=
  {| ShowArchived := ShowArchived o; ShowPrivate := x; ShowPublic :=
     ShowPublic o; ShowForks := ShowForks o; Language := Language o;
     MinStars := MinStars o; MaxStars := MaxStars o; InactiveForDays :=
     InactiveForDays o; SearchQuery := SearchQuery o; SortBy := SortBy o;
     SortDesc := SortDesc o |}.

Definition set_ShowPublic (x : bool) (o : FilterOptions) : FilterOptions :=
  {| ShowArchived := ShowArchived o; ShowPrivate := ShowPrivate o;
     ShowPublic := x; ShowForks := ShowForks o; Language := Language o;
     MinStars := MinStars o; MaxStars := MaxStars o; InactiveForDays :=
     InactiveForDays o; SearchQuery := SearchQuery o; SortBy := SortBy o;
     SortDesc := SortDesc o |}.

Definition set_ShowForks (x : bool) (o : FilterOptions) : FilterOptions :=
  {| ShowArchived := ShowArchived o; ShowPrivate := ShowPrivate o;
     ShowPublic := ShowPublic o; ShowForks := x; Language := Language o;
     MinStars := MinStars o; MaxStars := MaxStars o; InactiveForDays :=
     InactiveForDays o; SearchQuery := SearchQuery o; SortBy := SortBy o;
     SortDesc := SortDesc o |}.

Definition set_InactiveForDays (x : Z) (o : FilterOptions) : FilterOptions :=
  {| ShowArchived := ShowArchived o; ShowPrivate := ShowPrivate o;
     ShowPublic := ShowPublic o; ShowForks := ShowForks o; Language :=
     Language o; MinStars := MinStars o; MaxStars := MaxStars o;
     InactiveForDays := x; SearchQuery := SearchQuery o; SortBy := SortBy
     o; SortDesc := SortDesc o |}.

Definition set_SearchQuery (x : string) (o : FilterOptions) : FilterOptions :=
  {| ShowArchived := ShowArchived o; ShowPrivate := ShowPrivate o;
     ShowPublic := ShowPublic o; ShowForks := ShowForks o; Language :=
     Language o; MinStars := MinStars o; MaxStars := MaxStars o;
     InactiveForDays := InactiveForDays o; SearchQuery := x; SortBy :=
     SortBy o; SortDesc := SortDesc o |}.

Definition set_SortBy (x : SortField) (o : FilterOptions) : FilterOptions :=
  {| ShowArchived := ShowArchived o; ShowPrivate := ShowPrivate o;
     ShowPublic := ShowPublic o; ShowForks := ShowForks o; Language :=
     Language o; MinStars := MinStars o; MaxStars := MaxStars o;
     InactiveForDays := InactiveForDays o; SearchQuery := SearchQuery o;
     SortBy := x; SortDesc := SortDesc o |}.

Definition set_SortDesc (x : bool) (o : FilterOptions) : FilterOptions :=
  {| ShowArchived := ShowArchived o; ShowPrivate := ShowPrivate o;
     ShowPublic := ShowPublic o; ShowForks := ShowForks o; Language :=
     Language o; MinStars := MinStars o; MaxStars := MaxStars o;
     InactiveForDays := InactiveForDays o; SearchQuery := SearchQuery o;
     SortBy := SortBy o; SortDesc := x |}.

Section Filtering.
Context {rt : Runtime}.

(** The body of the loop of [Filter] for one record: [false] where the
    code reaches a [continue], [true] where it reaches the [append]. *)
Definition keeps (opts : FilterOptions) (cutoff : Time) (r : Repo) : bool :=
  if IsArchived r && negb (ShowArchived opts) then false
  else if IsPrivate r && negb (ShowPrivate opts) then false
  else if negb (IsPrivate r) && negb (ShowPublic opts) then false
  else if IsFork r && negb (ShowForks opts) then false
  else if negb (String.eqb (Language opts) "")
          && negb (strings_EqualFold (PrimaryLanguage r) (Language opts))
       then false
  else if (0 <=? MinStars opts)%Z && (StargazerCount r <? MinStars opts)%Z
       then false
  else if (0 <=? MaxStars opts)%Z && (MaxStars opts <? StargazerCount r)%Z
       then false
  else if (0 <? InactiveForDays opts)%Z && time_After (PushedAt r) cutoff
       then false
  else if negb (String.eqb (SearchQuery opts) "") then
    let query := strings_ToLower (SearchQuery opts) in
    let name := strings_ToLower (Name r) in
    let desc := strings_ToLower (Description r) in
    if negb (strings_Contains name query)
       && negb (strings_Contains desc query)
    then false else true
  else true.

(** [cutoff] as [Filter] computes it before the loop. *)
Definition cutoff_of (now : Time) (opts : FilterOptions) : Time :=
  if (0 <? InactiveForDays opts)%Z
  then time_AddDays now (- InactiveForDays opts)
  else time_zero.

(** [Filter(repos, opts)], with the reading of the clock [time.Now()]
    passed in as [now].  [result] starts as the nil slice and grows by
    [append]. *)
Definition Filter (now : Time) (repos : list Repo) (opts : FilterOptions)
  : list Repo :=
  let cutoff := cutoff_of now opts in
  fold_left
    (fun result r => if keeps opts cutoff r then result ++ [r] else result)
    repos [].
End Filtering.

(** The [switch] of [Sort] followed by [if desc { swap = !swap }], for the
    neighbours [a = repos[j]] and [b = repos[j+1]]. *)
Definition swap_wanted (sortBy : SortField) (desc : bool) (a b : Repo) : bool :=
  let swap :=
    match sortBy with
    | SortByName => String.ltb (Name b) (Name a)
    | SortByUpdated => time_Before (UpdatedAt a) (UpdatedAt b)
    | SortByCreated => time_Before (CreatedAt a) (CreatedAt b)
    | SortByStars => (StargazerCount a <? StargazerCount b)%Z
    | SortByForks => (ForkCount a <? ForkCount b)%Z
    | SortBySize => (DiskUsage a <? DiskUsage b)%Z
    end in
  if desc then negb swap else swap.

(** One iteration of the inner loop at index [j].  Both indices are inside
    the slice whenever the loops of [Sort] reach this point. *)
Definition Sort_step (sortBy : SortField) (desc : bool)
    (repos : list Repo) (j : nat) : list Repo :=
  match repos !! j, repos !! S j with
  | Some a, Some b =>
      if swap_wanted sortBy desc a b
      then <[S j := a]> (<[j := b]> repos)
      else repos
  | _, _ => repos
  end.

(** [for j := 0; j < n-i-1; j++ { ... }] *)
Definition Sort_pass (sortBy : SortField) (desc : bool) (n : nat)
    (repos : list Repo) (i : nat) : list Repo :=
  fold_left (Sort_step sortBy desc) (seq 0 (n - i - 1)%nat) repos.

(** [Sort(repos, sortBy, desc)]: the slice after the in-place bubble sort.
    With [n = 0] the Go bound [n-1] is negative and the truncated
    subtraction gives the same empty range. *)
Definition Sort (repos : list Repo) (sortBy : SortField) (desc : bool)
    : list Repo :=
  let n := length repos in
  fold_left (Sort_pass sortBy desc n) (seq 0 (n - 1)%nat) repos.

(** [SortField.String]. *)
Definition SortField_String (s : SortField) : string :=
  match s with
  | SortByName => "Name"
  | SortByUpdated => "Last Updated"
  | SortByCreated => "Created"
  | SortByStars => "Stars"
  | SortByForks => "Forks"
  | SortBySize => "Size"
  end.

(** [Repo.VisibilityString]. *)
Definition VisibilityString (r : Repo) : string :=
  if IsPrivate r then "Private" else "Public".

(** [Repo.StatusString]. *)
Definition StatusString (r : Repo) : string :=
  let parts := [] in
  let parts := if IsArchived r then parts ++ ["Archived"] else parts in
  let parts := if IsFork r then parts ++ ["Fork"] else parts in
  let parts := if IsTemplate r then parts ++ ["Template"] else parts in
  if (len parts =? 0)%Z then "-" else strings_Join parts ", ".

End repo.

(** ** internal/gh/client.go: how fetched records are built *)
Module gh.
Import repo.

(** One element of [result.Data.Viewer.Repositories.Nodes]. *)
Record Node := {
  nName : string;
  nFullName : string;
  nDescription : string;
  nURL : string;
  nSSHURL : string;
  nIsPrivate : bool;
  nIsArchived : bool;
  nIsFork : bool;
  nIsTemplate : bool;
  nStargazers : Z;
  nForkCount : Z;
  nIssuesTotalCount : Z;
  nPrimaryLanguage : option string;
  nCreatedAt : string;
  nUpdatedAt : string;
  nPushedAt : string;
  nDiskUsage : Z
}.

(** The elements of a slice that may be nil. *)
Definition elems {A} (s : option (list A)) : list A :=
  match s with Some l => l | None => [] end.

Section ListRepos.
Context {rt : Runtime}.

(** The composite literal [repo.Repo{...}] of [ListRepos]; the field
    [Selected] is not listed there and takes its zero value. *)
Definition repo_of_node (r : Node) : Repo :=
  let createdAt := time_ParseRFC3339 (nCreatedAt r) in
  let updatedAt := time_ParseRFC3339 (nUpdatedAt r) in
  let pushedAt := time_ParseRFC3339 (nPushedAt r) in
  let lang := match nPrimaryLanguage r with
              | Some name => name
              | None => ""
              end in
  {| Name := nName r; FullName := nFullName r;
     Description := nDescription r; URL := nURL r; SSHURL := nSSHURL r;
     IsPrivate := nIsPrivate r; IsArchived := nIsArchived r;
     IsFork := nIsFork r; IsTemplate := nIsTemplate r;
     StargazerCount := nStargazers r; ForkCount := nForkCount r;
     OpenIssuesCount := nIssuesTotalCount r; PrimaryLanguage := lang;
     CreatedAt := createdAt; UpdatedAt := updatedAt; PushedAt := pushedAt;
     DiskUsage := nDiskUsage r; Selected := false |}.

(** What the provider answered to one call of [ListRepos]: a failure with
    its text, or the node lists of the pages read until [HasNextPage] was
    false. *)
Inductive Fetched :=
  | FetchFailed (e : string)
  | FetchPages (pages : list (list Node)).

(** [ListRepos]: [allRepos] starts as the nil slice and every node of every
    page is appended to it. *)
Definition ListRepos (f : Fetched) : option (list Repo) * option string :=
  match f with
  | FetchFailed e => (None, Some e)
  | FetchPages pages =>
      (fold_left
         (fun allRepos nodes =>
            fold_left
              (fun allRepos r => Some (elems allRepos ++ [repo_of_node r]))
              nodes allRepos)
         pages None,
       None)
  end.
End ListRepos.

End gh.

(** ** internal/cache/cache.go: reading the cache *)
Module cache.
Import repo.

(** [cacheTTL = 5 * time.Minute], in nanoseconds as a [time.Duration]. *)
Definition cacheTTL : Z := 5 * (60 * 1000000000).

(** What the file system and the decoder answered to one call of [Load]:
    the path could not be built, the file does not exist, it could not be
    read, its content is not the JSON of a [CachedData], or it decoded to a
    value whose [Repos] field is [repos] and for which
    [time.Since(cached.CachedAt)] is [since]. *)
Inductive Read :=
  | PathError (e : string)
  | NotExist
  | ReadError (e : string)
  | Corrupt
  | Decoded (since : Z) (repos : option (list Repo)).

(** [Load(username)]: the repos, whether the cache is fresh, the error. *)
Definition Load (r : Read) : option (list Repo) * bool * option string :=
  match r with
  | PathError e => (None, false, Some e)
  | NotExist => (None, false, None)
  | ReadError e => (None, false, Some e)
  | Corrupt => (None, false, None)
  | Decoded since repos =>
      let fresh := since <? cacheTTL in
      (repos, fresh, None)
  end.

End cache.

(** ** internal/tui/model.go *)
Module tui.
Import repo gh.

Inductive View :=
  | ViewList | ViewFilter | ViewDetail
  | ViewConfirmArchive | ViewConfirmDelete | ViewHelp.

(** The part of [textinput.Model] the program reads and writes. *)
Record TextInput := { Focused : bool; Value : string }.

(** [Model].  [client] is [true] for a non-nil [*gh.Client]; [err] is
    [None] for the nil error.  The spinner widget is left out: no field of
    the model depends on it. *)
Record Model := {
  repos : list Repo;
  filteredRepos : list Repo;
  client : bool;
  username : string;
  view : View;
  cursor : Z;
  offset : Z;
  loading : bool;
  err : option string;
  message : string;
  messageIsError : bool;
  filterOpts : FilterOptions;
  searchInput : TextInput;
  width : Z;
  height : Z;
  showDetail : bool;
  selectedCount : Z
}.

(** Assignments to single fields of the model. *)
Definition set_repos (x : list Repo) (m : Model) : Model :=
  {| repos := x; filteredRepos := filteredRepos m; client := client m;
     username := username m; view := view m; cursor := cursor m; offset :=
     offset m; loading := loading m; err := err m; message := message m;
     messageIsError := messageIsError m; filterOpts := filterOpts m;
     searchInput := searchInput m; width := width m; height := height m;
     showDetail := showDetail m; selectedCount := selectedCount m |}.

Definition set_filteredRepos (x : list Repo) (m : Model) : Model :=
  {| repos := repos m; filteredRepos := x; client := client m; username :=
     username m; view := view m; cursor := cursor m; offset := offset m;
     loading := loading m; err := err m; message := message m;
     messageIsError := messageIsError m; filterOpts := filterOpts m;
     searchInput := searchInput m; width := width m; height := height m;
     showDetail := showDetail m; selectedCount := selectedCount m |}.

Definition set_client (x : bool) (m : Model) : Model :=
  {| repos := repos m; filteredRepos := filteredRepos m; client := x;
     username := username m; view := view m; cursor := cursor m; offset :=
     offset m; loading := loading m; err := err m; message := message m;
     messageIsError := messageIsError m; filterOpts := filterOpts m;
     searchInput := searchInput m; width := width m; height := height m;
     showDetail := showDetail m; selectedCount := selectedCount m |}.

Definition set_username (x : string) (m : Model) : Model :=
  {| repos := repos m; filteredRepos := filteredRepos m; client := client
     m; username := x; view := view m; cursor := cursor m; offset := offset
     m; loading := loading m; err := err m; message := message m;
     messageIsError := messageIsError m; filterOpts := filterOpts m;
     searchInput := searchInput m; width := width m; height := height m;
     showDetail := showDetail m; selectedCount := selectedCount m |}.

Definition set_view (x : View) (m : Model) : Model :=
  {| repos := repos m; filteredRepos := filteredRepos m; client := client
     m; username := username m; view := x; cursor := cursor m; offset :=
     offset m; loading := loading m; err := err m; message := message m;
     messageIsError := messageIsError m; filterOpts := filterOpts m;
     searchInput := searchInput m; width := width m; height := height m;
     showDetail := showDetail m; selectedCount := selectedCount m |}.

Definition set_cursor (x : Z) (m : Model) : Model :=
  {| repos := repos m; filteredRepos := filteredRepos m; client := client
     m; username := username m; view := view m; cursor := x; offset :=
     offset m; loading := loading m; err := err m; message := message m;
     messageIsError := messageIsError m; filterOpts := filterOpts m;
     searchInput := searchInput m; width := width m; height := height m;
     showDetail := showDetail m; selectedCount := selectedCount m |}.

Definition set_offset (x : Z) (m : Model) : Model :=
  {| repos := repos m; filteredRepos := filteredRepos m; client := client
     m; username := username m; view := view m; cursor := cursor m; offset
     := x; loading := loading m; err := err m; message := message m;
     messageIsError := messageIsError m; filterOpts := filterOpts m;
     searchInput := searchInput m; width := width m; height := height m;
     showDetail := showDetail m; selectedCount := selectedCount m |}.

Definition set_loading (x : bool) (m : Model) : Model :=
  {| repos := repos m; filteredRepos := filteredRepos m; client := client
     m; username := username m; view := view m; cursor := cursor m; offset
     := offset m; loading := x; err := err m; message := message m;
     messageIsError := messageIsError m; filterOpts := filterOpts m;
     searchInput := searchInput m; width := width m; height := height m;
     showDetail := showDetail m; selectedCount := selectedCount m |}.

Definition set_err (x : option string) (m : Model) : Model :=
  {| repos := repos m; filteredRepos := filteredRepos m; client := client
     m; username := username m; view := view m; cursor := cursor m; offset
     := offset m; loading := loading m; err := x; message := message m;
     messageIsError := messageIsError m; filterOpts := filterOpts m;
     searchInput := searchInput m; width := width m; height := height m;
     showDetail := showDetail m; selectedCount := selectedCount m |}.

Definition set_message (x : string) (m : Model) : Model :=
  {| repos := repos m; filteredRepos := filteredRepos m; client := client
     m; username := username m; view := view m; cursor := cursor m; offset
     := offset m; loading := loading m; err := err m; message := x;
     messageIsError := messageIsError m; filterOpts := filterOpts m;
     searchInput := searchInput m; width := width m; height := height m;
     showDetail := showDetail m; selectedCount := selectedCount m |}.

Definition set_messageIsError (x : bool) (m : Model) : Model :=
  {| repos := repos m; filteredRepos := filteredRepos m; client := client
     m; username := username m; view := view m; cursor := cursor m; offset
     := offset m; loading := loading m; err := err m; message := message m;
     messageIsError := x; filterOpts := filterOpts m; searchInput :=
     searchInput m; width := width m; height := height m; showDetail :=
     showDetail m; selectedCount := selectedCount m |}.

Definition set_filterOpts (x : FilterOptions) (m : Model) : Model :=
  {| repos := repos m; filteredRepos := filteredRepos m; client := client
     m; username := username m; view := view m; cursor := cursor m; offset
     := offset m; loading := loading m; err := err m; message := message m;
     messageIsError := messageIsError m; filterOpts := x; searchInput :=
     searchInput m; width := width m; height := height m; showDetail :=
     showDetail m; selectedCount := selectedCount m |}.

Definition set_searchInput (x : TextInput) (m : Model) : Model :=
  {| repos := repos m; filteredRepos := filteredRepos m; client := client
     m; username := username m; view := view m; cursor := cursor m; offset
     := offset m; loading := loading m; err := err m; message := message m;
     messageIsError := messageIsError m; filterOpts := filterOpts m;
     searchInput := x; width := width m; height := height m; showDetail :=
     showDetail m; selectedCount := selectedCount m |}.

Definition set_width (x : Z) (m : Model) : Model :=
  {| repos := repos m; filteredRepos := filteredRepos m; client := client
     m; username := username m; view := view m; cursor := cursor m; offset
     := offset m; loading := loading m; err := err m; message := message m;
     messageIsError := messageIsError m; filterOpts := filterOpts m;
     searchInput := searchInput m; width := x; height := height m;
     showDetail := showDetail m; selectedCount := selectedCount m |}.

Definition set_height (x : Z) (m : Model) : Model :=
  {| repos := repos m; filteredRepos := filteredRepos m; client := client
     m; username := username m; view := view m; cursor := cursor m; offset
     := offset m; loading := loading m; err := err m; message := message m;
     messageIsError := messageIsError m; filterOpts := filterOpts m;
     searchInput := searchInput m; width := width m; height := x;
     showDetail := showDetail m; selectedCount := selectedCount m |}.

Definition set_selectedCount (x : Z) (m : Model) : Model :=
  {| repos := repos m; filteredRepos := filteredRepos m; client := client
     m; username := username m; view := view m; cursor := cursor m; offset
     := offset m; loading := loading m; err := err m; message := message m;
     messageIsError := messageIsError m; filterOpts := filterOpts m;
     searchInput := searchInput m; width := width m; height := height m;
     showDetail := showDetail m; selectedCount := x |}.

(** Messages folded by [Update].  An [errorMsg] carries the text of its
    non-nil error.  [otherMsg] is any message the [switch] has no case for. *)
Inductive Msg :=
  | KeyMsg (key : string)
  | WindowSizeMsg (Width Height : Z)
  | spinner_TickMsg
  | reposLoadedMsg (rs : option (list Repo)) (user : string)
  | cacheLoadedMsg (rs : option (list Repo)) (user : string) (fresh : bool)
  | backgroundRefreshMsg (rs : option (list Repo))
  | errorMsg (e : string)
  | archiveCompleteMsg (name : string)
  | deleteCompleteMsg (name : string)
  | actionMsg (text : string)
  | otherMsg.

(** Commands handed to the runtime.  [Cmd_archive c name] and
    [Cmd_delete c name] are the closures built on the confirmation screens:
    they capture the model's client [c] and the local [name]. *)
Inductive Cmd :=
  | Cmd_Quit
  | Cmd_Blink
  | Cmd_spinner
  | Cmd_textinput
  | Cmd_loadReposWithCache
  | Cmd_refreshRepos (user : string)
  | Cmd_forceRefreshRepos
  | Cmd_archive (c : bool) (name : string)
  | Cmd_delete (c : bool) (name : string)
  | Cmd_action (text : string).

(** [NewModel()]. *)
Definition NewModel : Model :=
  {| repos := []; filteredRepos := []; client := false; username := "";
     view := ViewList; cursor := 0; offset := 0; loading := true;
     err := None; message := ""; messageIsError := false;
     filterOpts := DefaultFilterOptions;
     searchInput := {| Focused := false; Value := "" |};
     width := 80; height := 24; showDetail := false; selectedCount := 0 |}.

(** [m.Init()]. *)
Definition Init (m : Model) : list Cmd := [Cmd_spinner; Cmd_loadReposWithCache].

(** [forceRefreshRepos], given what [GetCurrentUser] and [ListRepos]
    answered. *)
Definition forceRefreshRepos {rt : Runtime}
    (user : string + string) (f : Fetched) : Msg :=
  match user with
  | inl e => errorMsg e
  | inr name =>
      match ListRepos f with
      | (_, Some e) => errorMsg e
      | (rs, None) => reposLoadedMsg rs name
      end
  end.

(** The closure returned by [refreshRepos(username)]; [None] is the nil
    message of the silent failure. *)
Definition refreshRepos {rt : Runtime} (f : Fetched) : option Msg :=
  match ListRepos f with
  | (_, Some _) => None
  | (rs, None) => Some (backgroundRefreshMsg rs)
  end.

(** The closures of the confirmation screens; [provider name] is the error
    of [ArchiveRepo(name)] (of [DeleteRepo(name)]), [None] when it
    succeeded. *)
Definition run_archive (provider : string -> option string)
    (c : bool) (name : string) : Msg :=
  if c then
    match provider name with
    | Some e => errorMsg e
    | None => archiveCompleteMsg name
    end
  else archiveCompleteMsg name.

Definition run_delete (provider : string -> option string)
    (c : bool) (name : string) : Msg :=
  if c then
    match provider name with
    | Some e => errorMsg e
    | None => deleteCompleteMsg name
    end
  else deleteCompleteMsg name.

(** *** Helper methods *)

Definition visibleRows (m : Model) : Z := int64 (height m - 10).

Definition adjustOffset (m : Model) : Model :=
  let visible := visibleRows m in
  let m := if cursor m <? offset m then set_offset (cursor m) m else m in
  if int64 (offset m + visible) <=? cursor m
  then set_offset (int64 (int64 (cursor m - visible) + 1)) m
  else m.

(** The loop of [updateSelectedCount]. *)
Definition updateSelectedCount (m : Model) : Model :=
  let count :=
    fold_left (fun count r => if Selected r then count + 1 else count)
              (repos m) 0 in
  set_selectedCount count m.

(** [for i, r := range rs { if r.FullName == name { return i } }; return -1],
    counting from [i]. *)
Fixpoint index_of_name (name : string) (rs : list Repo) (i : Z) : Z :=
  match rs with
  | [] => -1
  | r :: rest =>
      if String.eqb (FullName r) name then i
      else index_of_name name rest (i + 1)
  end.

Definition getActualIndex (m : Model) (filteredIdx : Z) : Z :=
  if (filteredIdx <? 0) || (len (filteredRepos m) <=? filteredIdx) then -1
  else
    match filteredRepos m !! Z.to_nat filteredIdx with
    | Some f => index_of_name (FullName f) (repos m) 0
    | None => -1
    end.

Definition findFilteredIndex (m : Model) (fullName : string) : Z :=
  index_of_name fullName (filteredRepos m) 0.

(** [(m.filterOpts.SortBy + 1) % 6] on the six sort fields. *)
Definition cycleSortField (m : Model) : Model :=
  let next :=
    match SortBy (filterOpts m) with
    | SortByName => SortByUpdated
    | SortByUpdated => SortByCreated
    | SortByCreated => SortByStars
    | SortByStars => SortByForks
    | SortByForks => SortBySize
    | SortBySize => SortByName
    end in
  set_filterOpts (set_SortBy next (filterOpts m)) m.

(** The loop of [cycleInactiveDays] from index [i] on. *)
Fixpoint cycle_loop (options rest : list Z) (i : nat) (current : Z) : Z :=
  match rest with
  | [] => 0
  | opt :: rest' =>
      if opt =? current
      then default 0 (options !! ((i + 1) mod length options)%nat)
      else cycle_loop options rest' (S i) current
  end.

Definition cycleInactiveDays (current : Z) : Z :=
  let options := [0; 30; 90; 180; 365; 730] in
  cycle_loop options options 0%nat current.

Section Update.
Context {rt : Runtime}.

(** [applyFilters], with the clock reading used by [Filter]. *)
Definition applyFilters (now : Time) (m : Model) : Model :=
  let m := set_filteredRepos (Filter now (repos m) (filterOpts m)) m in
  let m := set_filteredRepos
             (Sort (filteredRepos m) (SortBy (filterOpts m))
                   (SortDesc (filterOpts m))) m in
  let m := if len (filteredRepos m) <=? cursor m
           then set_cursor (len (filteredRepos m) - 1) m else m in
  let m := if cursor m <? 0 then set_cursor 0 m else m in
  adjustOffset m.

(** A handler's outcome: the new model and the batch of commands, or
    [None] when the code indexes a slice out of range and panics. *)
Definition Outcome : Type := option (Model * list Cmd).

(** [case k1, k2, ...:] of a [switch msg.String()]. *)
Definition key_in (key : string) (ks : list string) : bool :=
  existsb (String.eqb key) ks.

Definition toggle_ShowArchived (m : Model) : Model :=
  set_filterOpts
    (set_ShowArchived (negb (ShowArchived (filterOpts m))) (filterOpts m)) m.
Definition toggle_ShowPrivate (m : Model) : Model :=
  set_filterOpts
    (set_ShowPrivate (negb (ShowPrivate (filterOpts m))) (filterOpts m)) m.
Definition toggle_ShowPublic (m : Model) : Model :=
  set_filterOpts
    (set_ShowPublic (negb (ShowPublic (filterOpts m))) (filterOpts m)) m.
Definition toggle_ShowForks (m : Model) : Model :=
  set_filterOpts
    (set_ShowForks (negb (ShowForks (filterOpts m))) (filterOpts m)) m.
Definition toggle_SortDesc (m : Model) : Model :=
  set_filterOpts
    (set_SortDesc (negb (SortDesc (filterOpts m))) (filterOpts m)) m.

(** [idx := m.getActualIndex(m.cursor); if idx >= 0 {
      m.repos[idx].Selected = true; m.updateSelectedCount(); m.view = v }] *)
Definition select_under_cursor (v : View) (m : Model) : Model :=
  let idx := getActualIndex m (cursor m) in
  if 0 <=? idx then
    let m := set_repos (alter (set_Selected true) (Z.to_nat idx) (repos m)) m in
    let m := updateSelectedCount m in
    set_view v m
  else m.

(** The body of the loop of key [A] at index [i]. *)
Definition select_visible_step (m : Model) (i : nat) : Model :=
  match filteredRepos m !! i with
  | Some f =>
      if negb (IsArchived f) then
        let m := set_filteredRepos
                   (alter (set_Selected true) i (filteredRepos m)) m in
        let idx := getActualIndex m (Z.of_nat i) in
        if 0 <=? idx
        then set_repos (alter (set_Selected true) (Z.to_nat idx) (repos m)) m
        else m
      else m
  | None => m
  end.

Definition handleListKeys (now : Time) (m : Model) (key : string) : Outcome :=
  if Focused (searchInput m) then
    if key_in key ["enter"; "esc"] then
      let m := set_searchInput
                 {| Focused := false; Value := Value (searchInput m) |} m in
      let m := set_filterOpts
                 (set_SearchQuery (Value (searchInput m)) (filterOpts m)) m in
      Some (applyFilters now m, [])
    else
      let m := set_searchInput
                 {| Focused := Focused (searchInput m);
                    Value := textinput_Update (Value (searchInput m)) key |}
                 m in
      let m := set_filterOpts
                 (set_SearchQuery (Value (searchInput m)) (filterOpts m)) m in
      Some (applyFilters now m, [Cmd_textinput])
  else if key_in key ["up"; "k"] then
    if 0 <? cursor m
    then Some (adjustOffset (set_cursor (cursor m - 1) m), [])
    else Some (m, [])
  else if key_in key ["down"; "j"] then
    if cursor m <? len (filteredRepos m) - 1
    then Some (adjustOffset (set_cursor (cursor m + 1) m), [])
    else Some (m, [])
  else if key_in key ["pgup"] then
    let m := set_cursor (int64 (cursor m - visibleRows m)) m in
    let m := if cursor m <? 0 then set_cursor 0 m else m in
    Some (adjustOffset m, [])
  else if key_in key ["pgdown"] then
    let m := set_cursor (int64 (cursor m + visibleRows m)) m in
    let m := if len (filteredRepos m) <=? cursor m
             then set_cursor (len (filteredRepos m) - 1) m else m in
    let m := if cursor m <? 0 then set_cursor 0 m else m in
    Some (adjustOffset m, [])
  else if key_in key ["home"; "g"] then
    Some (set_offset 0 (set_cursor 0 m), [])
  else if key_in key ["end"; "G"] then
    let m := set_cursor (len (filteredRepos m) - 1) m in
    let m := if cursor m <? 0 then set_cursor 0 m else m in
    Some (adjustOffset m, [])
  else if key_in key ["/"] then
    Some (set_searchInput
            {| Focused := true; Value := Value (searchInput m) |} m,
          [Cmd_Blink])
  else if key_in key ["f"] then
    Some (set_view ViewFilter m, [])
  else if key_in key ["enter"; "l"] then
    if 0 <? len (filteredRepos m)
    then Some (set_view ViewDetail m, [])
    else Some (m, [])
  else if key_in key [" "; "x"] then
    if 0 <? len (filteredRepos m) then
      let idx := getActualIndex m (cursor m) in
      if 0 <=? idx then
        let m := set_repos
                   (alter (fun r => set_Selected (negb (Selected r)) r)
                          (Z.to_nat idx) (repos m)) m in
        let now_selected :=
          match repos m !! Z.to_nat idx with
          | Some r => Selected r
          | None => false
          end in
        let m := set_filteredRepos
                   (alter (set_Selected now_selected)
                          (Z.to_nat (cursor m)) (filteredRepos m)) m in
        Some (updateSelectedCount m, [])
      else Some (m, [])
    else Some (m, [])
  else if key_in key ["a"] then
    if 0 <? len (filteredRepos m) then
      if 0 <? selectedCount m
      then Some (set_view ViewConfirmArchive m, [])
      else Some (select_under_cursor ViewConfirmArchive m, [])
    else Some (m, [])
  else if key_in key ["d"] then
    if 0 <? len (filteredRepos m) then
      if 0 <? selectedCount m
      then Some (set_view ViewConfirmDelete m, [])
      else Some (select_under_cursor ViewConfirmDelete m, [])
    else Some (m, [])
  else if key_in key ["A"] then
    let m := fold_left select_visible_step
                       (seq 0 (length (filteredRepos m))) m in
    Some (updateSelectedCount m, [])
  else if key_in key ["D"] then
    let m := set_repos (map (set_Selected false) (repos m)) m in
    let m := set_filteredRepos
               (map (set_Selected false) (filteredRepos m)) m in
    Some (set_selectedCount 0 m, [])
  else if key_in key ["o"] then
    if (0 <? len (filteredRepos m)) && client m then
      match filteredRepos m !! Z.to_nat (cursor m) with
      | Some r =>
          if 0 <=? cursor m
          then Some (m, [Cmd_action "Opening in browser..."])
          else None
      | None => None
      end
    else Some (m, [])
  else if key_in key ["s"] then
    Some (applyFilters now (cycleSortField m), [])
  else if key_in key ["S"] then
    Some (applyFilters now (toggle_SortDesc m), [])
  else if key_in key ["r"] then
    Some (set_loading true m, [Cmd_forceRefreshRepos])
  else if key_in key ["?"] then
    Some (set_view ViewHelp m, [])
  else if key_in key ["1"] then
    Some (applyFilters now (toggle_ShowArchived m), [])
  else if key_in key ["2"] then
    Some (applyFilters now (toggle_ShowPrivate m), [])
  else if key_in key ["3"] then
    Some (applyFilters now (toggle_ShowPublic m), [])
  else if key_in key ["4"] then
    Some (applyFilters now (toggle_ShowForks m), [])
  else Some (m, []).

Definition handleFilterKeys (now : Time) (m : Model) (key : string) : Outcome :=
  if key_in key ["esc"; "q"; "f"] then
    Some (set_view ViewList m, [])
  else if key_in key ["1"] then
    Some (applyFilters now (toggle_ShowArchived m), [])
  else if key_in key ["2"] then
    Some (applyFilters now (toggle_ShowPrivate m), [])
  else if key_in key ["3"] then
    Some (applyFilters now (toggle_ShowPublic m), [])
  else if key_in key ["4"] then
    Some (applyFilters now (toggle_ShowForks m), [])
  else if key_in key ["5"] then
    let m := set_filterOpts
               (set_InactiveForDays
                  (cycleInactiveDays (InactiveForDays (filterOpts m)))
                  (filterOpts m)) m in
    Some (applyFilters now m, [])
  else if key_in key ["s"] then
    Some (applyFilters now (cycleSortField m), [])
  else if key_in key ["S"] then
    Some (applyFilters now (toggle_SortDesc m), [])
  else if key_in key ["r"] then
    let m := set_filterOpts DefaultFilterOptions m in
    let m := set_searchInput
               {| Focused := Focused (searchInput m); Value := "" |} m in
    Some (applyFilters now m, [])
  else Some (m, []).

Definition handleDetailKeys (m : Model) (key : string) : Outcome :=
  if key_in key ["esc"; "q"; "h"] then
    Some (set_view ViewList m, [])
  else if key_in key ["o"] then
    if client m && (0 <? len (filteredRepos m)) then
      match filteredRepos m !! Z.to_nat (cursor m) with
      | Some r => if 0 <=? cursor m then Some (m, []) else None
      | None => None
      end
    else Some (m, [])
  else if key_in key ["a"] then
    if 0 <? len (filteredRepos m)
    then Some (select_under_cursor ViewConfirmArchive m, [])
    else Some (m, [])
  else Some (m, []).

(** The loop of the [y] case of [handleConfirmArchiveKeys]: one closure
    is appended for each record that is selected and not archived. *)
Definition archive_cmds (m : Model) : list Cmd :=
  fold_left
    (fun cmds r =>
       if Selected r && negb (IsArchived r)
       then let name := FullName r in cmds ++ [Cmd_archive (client m) name]
       else cmds)
    (repos m) [].

Definition handleConfirmArchiveKeys (m : Model) (key : string) : Outcome :=
  if key_in key ["y"; "Y"] then
    let cmds := archive_cmds m in
    Some (set_view ViewList m, cmds)
  else if key_in key ["n"; "N"; "esc"; "q"] then
    let m := set_repos (map (set_Selected false) (repos m)) m in
    let m := set_selectedCount 0 m in
    Some (set_view ViewList m, [])
  else Some (m, []).

(** The loop of the [y] case of [handleConfirmDeleteKeys]. *)
Definition delete_cmds (m : Model) : list Cmd :=
  fold_left
    (fun cmds r =>
       if Selected r
       then let name := FullName r in cmds ++ [Cmd_delete (client m) name]
       else cmds)
    (repos m) [].

Definition handleConfirmDeleteKeys (m : Model) (key : string) : Outcome :=
  if key_in key ["y"; "Y"] then
    let cmds := delete_cmds m in
    Some (set_view ViewList m, cmds)
  else if key_in key ["n"; "N"; "esc"; "q"] then
    let m := set_repos (map (set_Selected false) (repos m)) m in
    let m := set_selectedCount 0 m in
    Some (set_view ViewList m, [])
  else Some (m, []).

Definition handleHelpKeys (m : Model) (key : string) : Outcome :=
  if key_in key ["esc"; "q"; "?"] then Some (set_view ViewList m, [])
  else Some (m, []).

Definition handleKeyPress (now : Time) (m : Model) (key : string) : Outcome :=
  if key_in key ["ctrl+c"; "q"]
     && match view m with ViewList => true | _ => false end
     && negb (Focused (searchInput m))
  then Some (m, [Cmd_Quit])
  else
    match view m with
    | ViewList => handleListKeys now m key
    | ViewFilter => handleFilterKeys now m key
    | ViewDetail => handleDetailKeys m key
    | ViewConfirmArchive => handleConfirmArchiveKeys m key
    | ViewConfirmDelete => handleConfirmDeleteKeys m key
    | ViewHelp => handleHelpKeys m key
    end.

(** [for i := range m.repos { if m.repos[i].FullName == name {
      m.repos[i].IsArchived = true; m.repos[i].Selected = false; break } }] *)
Fixpoint mark_archived (name : string) (rs : list Repo) : list Repo :=
  match rs with
  | [] => []
  | r :: rest =>
      if String.eqb (FullName r) name
      then set_Selected false (set_IsArchived true r) :: rest
      else r :: mark_archived name rest
  end.

(** [for i := range m.repos { if m.repos[i].FullName == name {
      m.repos = append(m.repos[:i], m.repos[i+1:]...); break } }] *)
Fixpoint remove_named (name : string) (rs : list Repo) : list Repo :=
  match rs with
  | [] => []
  | r :: rest =>
      if String.eqb (FullName r) name then rest
      else r :: remove_named name rest
  end.

(** The first loop of the [backgroundRefreshMsg] case: the map
    [selectedNames] holds [true] at the name of every selected record. *)
Definition selected_names (rs : list Repo) : gmap string bool :=
  fold_left
    (fun selectedNames r =>
       if Selected r then <[FullName r := true]> selectedNames
       else selectedNames)
    rs ∅.

(** [selectedNames[name]]: a missing key reads as [false]. *)
Definition names_get (selectedNames : gmap string bool) (name : string)
  : bool :=
  default false (selectedNames !! name).

(** The second loop of the [backgroundRefreshMsg] case. *)
Definition restore_selection (selectedNames : gmap string bool)
    (rs : list Repo) : list Repo :=
  fold_left
    (fun rs i =>
       match rs !! i with
       | Some r =>
           if names_get selectedNames (FullName r)
           then alter (set_Selected true) i rs
           else rs
       | None => rs
       end)
    (seq 0 (length rs)) rs.

(** [fmt.Sprintf] with one [%d]. *)
Definition sprintf_d (before : string) (n : Z) (after : string) : string :=
  before +:+ pretty n +:+ after.

(** [m.Update(msg)]; [now] is the clock reading of the [Filter] call, if
    the fold makes one. *)
Definition Update (now : Time) (m : Model) (msg : Msg) : Outcome :=
  match msg with
  | KeyMsg key => handleKeyPress now m key
  | WindowSizeMsg w h => Some (set_height h (set_width w m), [])
  | spinner_TickMsg =>
      if loading m then Some (m, [Cmd_spinner]) else Some (m, [])
  | reposLoadedMsg rs user =>
      let m := set_loading false m in
      let m := set_repos (elems rs) m in
      let m := set_username user m in
      let m := set_client true m in
      let m := applyFilters now m in
      let m := set_message
                 (sprintf_d "Loaded " (len (repos m)) " repositories") m in
      Some (m, [])
  | cacheLoadedMsg rs user fresh =>
      let m := set_loading false m in
      let m := set_repos (elems rs) m in
      let m := set_username user m in
      let m := set_client true m in
      let m := applyFilters now m in
      if fresh then
        Some (set_message
                (sprintf_d "Loaded " (len (repos m))
                           " repositories (cached)") m, [])
      else
        Some (set_message
                (sprintf_d "Loaded " (len (repos m))
                           " repositories (refreshing...)") m,
              [Cmd_refreshRepos user])
  | backgroundRefreshMsg rs =>
      match rs with
      | Some new =>
          let selectedNames := selected_names (repos m) in
          let m := set_repos new m in
          let m := set_repos (restore_selection selectedNames (repos m)) m in
          let m := applyFilters now m in
          Some (set_message
                  (sprintf_d "Refreshed " (len (repos m)) " repositories") m,
                [])
      | None => Some (m, [])
      end
  | errorMsg e =>
      let m := set_loading false m in
      let m := set_err (Some e) m in
      let m := set_message e m in
      let m := set_messageIsError true m in
      Some (m, [])
  | archiveCompleteMsg name =>
      let m := set_message ("Archived: " +:+ name) m in
      let m := set_messageIsError false m in
      let m := set_repos (mark_archived name (repos m)) m in
      Some (applyFilters now m, [])
  | deleteCompleteMsg name =>
      let m := set_message ("Deleted: " +:+ name) m in
      let m := set_messageIsError false m in
      let m := set_repos (remove_named name (repos m)) m in
      Some (applyFilters now m, [])
  | actionMsg text =>
      let m := set_message text m in
      Some (set_messageIsError false m, [])
  | otherMsg => Some (m, [])
  end.

(** The consumer loop: messages are folded in the order received, each at
    its own clock reading; a panic ends the program. *)
Fixpoint run (m : Model) (msgs : list (Time * Msg)) : option Model :=
  match msgs with
  | [] => Some m
  | (now, msg) :: rest =>
      match Update now m msg with
      | Some (m', _) => run m' rest
      | None => None
      end
  end.
End Update.



(** [truncate(s, max)]; [None] is the panic of a slice expression with a
    negative bound. *)
Definition truncate (s : string) (max : Z) : option string :=
  if len_string s <=? max then Some s
  else if max <=? 3 then
    if max <? 0 then None else Some (string_prefix (Z.to_nat max) s)
  else Some (string_prefix (Z.to_nat (max - 3)) s +:+ "...").

(** [pluralize(n, singular, plural)]. *)
Definition pluralize (n : Z) (singular plural : string) : string :=
  if n =? 1 then singular else plural.

(** [loadReposWithCache], given what the collaborators answered:
    [auth] is the error of [CheckAuth], [user] the result of
    [GetCurrentUser], [cached] the triple returned by [cache.Load] and [f]
    the answer to [ListRepos], which is only asked on a cache miss. *)
Definition loadReposWithCache {rt : Runtime}
    (auth : option string) (user : string + string)
    (cached : option (list Repo) * bool * option string) (f : Fetched) : Msg :=
  match auth with
  | Some e => errorMsg ("not authenticated with gh CLI: " +:+ e)
  | None =>
      match user with
      | inl e => errorMsg e
      | inr username =>
          let '(repos, fresh, err) := cached in
          match err, repos with
          | None, Some _ => cacheLoadedMsg repos username fresh
          | _, _ =>
              match ListRepos f with
              | (_, Some e) => errorMsg e
              | (repos, None) => reposLoadedMsg repos username
              end
          end
      end
  end.

End tui.


(** ** A runtime for evaluating the model on examples

    ASCII case mapping, a clock counting seconds in UTC (where a calendar
    day is 86400 seconds), and a text input that appends one-character
    keys. *)
Module Examples.
Import repo gh tui.

Definition lower_ascii (c : ascii) : ascii :=
  let n := nat_of_ascii c in
  if (65 <=? n)%nat && (n <=? 90)%nat then ascii_of_nat (n + 32) else c.

Fixpoint lower (s : string) : string :=
  match s with
  | EmptyString => EmptyString
  | String c s' => String (lower_ascii c) (lower s')
  end.

#[export] Instance ascii_runtime : Runtime := {|
  strings_EqualFold a b := String.eqb (lower a) (lower b);
  strings_ToLower := lower;
  time_AddDays t days := t + 86400 * days;
  time_ParseRFC3339 _ := time_zero;
  textinput_Update v key :=
    if (String.length key =? 1)%nat then v +:+ key else v
|}.

(** A public, unarchived record named [name] with [stars] stars. *)
Definition sample (name : string) (stars : Z) (selected : bool) : Repo :=
  {| Name := name; FullName := "octo/" +:+ name; Description := "";
     URL := ""; SSHURL := ""; IsPrivate := false; IsArchived := false;
     IsFork := false; IsTemplate := false; StargazerCount := stars;
     ForkCount := 0; OpenIssuesCount := 0; PrimaryLanguage := "Go";
     CreatedAt := 100; UpdatedAt := 200; PushedAt := 300;
     DiskUsage := 10; Selected := selected |}.

End Examples.

(** * Vocabulary of the properties *)

Import repo gh tui.

(** What one iteration of the inner loop of [Sort] can do to the slice:
    exchange two neighbours for which the comparison asks a swap. *)
Inductive exchange (sortBy : SortField) (desc : bool)
    : list Repo -> list Repo -> Prop :=
  | exchange_at l1 a b l2 :
      swap_wanted sortBy desc a b = true ->
      exchange sortBy desc (l1 ++ a :: b :: l2) (l1 ++ b :: a :: l2).

(** Two records have the same value in the field [Sort] compares. *)
Definition same_key (sortBy : SortField) (x y : Repo) : bool :=
  match sortBy with
  | SortByName => String.eqb (Name x) (Name y)
  | SortByUpdated => UpdatedAt x =? UpdatedAt y
  | SortByCreated => CreatedAt x =? CreatedAt y
  | SortByStars => StargazerCount x =? StargazerCount y
  | SortByForks => ForkCount x =? ForkCount y
  | SortBySize => DiskUsage x =? DiskUsage y
  end.

(** [applyFilters] clamps the cursor with these two tests. *)
Definition clamp_cursor (c n : Z) : Z :=
  let c := if n <=? c then n - 1 else c in
  if c <? 0 then 0 else c.

(** The cursor points into the filtered view, or is 0 when the view is
    empty. *)
Definition cursor_valid (m : Model) : Prop :=
  0 <= cursor m
  /\ (filteredRepos m = [] -> cursor m = 0)
  /\ (filteredRepos m <> [] -> cursor m <= len (filteredRepos m) - 1).

(** The events after which the filtered view is recomputed: the folds that
    change the record set, and the keys that change a filter, the sort or
    the search text on the screen that handles them. *)
Definition recomputes_view (m : Model) (msg : Msg) : bool :=
  match msg with
  | reposLoadedMsg _ _ | cacheLoadedMsg _ _ _
  | backgroundRefreshMsg (Some _)
  | archiveCompleteMsg _ | deleteCompleteMsg _ => true
  | KeyMsg key =>
      match view m with
      | ViewList =>
          Focused (searchInput m)
          || existsb (String.eqb key) ["s"; "S"; "1"; "2"; "3"; "4"]
      | ViewFilter =>
          existsb (String.eqb key) ["1"; "2"; "3"; "4"; "5"; "s"; "S"; "r"]
      | _ => false
      end
  | _ => false
  end.

(** The view [applyFilters] computes. *)
Definition filtered_view {rt : Runtime} (now : Time) (rs : list Repo)
    (o : FilterOptions) : list Repo :=
  Sort (Filter now rs o) (SortBy o) (SortDesc o).

(** Some record of [old] with identifier [name] is selected. *)
Definition selected_in (old : list Repo) (name : string) : bool :=
  existsb (fun o => String.eqb (FullName o) name && Selected o) old.

(** The merge as the design states it: the new set, each record selected
    iff its identifier was selected in the old set. *)
Definition merge_by_identifier (old new : list Repo) : list Repo :=
  map (fun r => set_Selected (selected_in old (FullName r)) r) new.

(** What the second loop of the refresh fold does to one record. *)
Definition restore_one (selectedNames : gmap string bool) (r : Repo) : Repo :=
  if names_get selectedNames (FullName r) then set_Selected true r else r.

(** [a] may stand before [b] in a slice ordered by [sortBy]: without the
    descending flag names ascend and times and counts descend, with it the
    directions are reversed. *)
Definition in_order (sortBy : SortField) (desc : bool) (a b : Repo) : bool :=
  match sortBy with
  | SortByName =>
      if desc then String.leb (Name b) (Name a)
      else String.leb (Name a) (Name b)
  | SortByUpdated =>
      if desc then UpdatedAt a <=? UpdatedAt b
      else UpdatedAt b <=? UpdatedAt a
  | SortByCreated =>
      if desc then CreatedAt a <=? CreatedAt b
      else CreatedAt b <=? CreatedAt a
  | SortByStars =>
      if desc then StargazerCount a <=? StargazerCount b
      else StargazerCount b <=? StargazerCount a
  | SortByForks =>
      if desc then ForkCount a <=? ForkCount b
      else ForkCount b <=? ForkCount a
  | SortBySize =>
      if desc then DiskUsage a <=? DiskUsage b
      else DiskUsage b <=? DiskUsage a
  end.

(** One pass of [k] neighbour comparisons from the head of the slice,
    written by recursion on the slice; [Sort_pass_bubble] shows it is the
    inner loop of [Sort]. *)
Fixpoint bubble (sw : Repo -> Repo -> bool) (k : nat) (l : list Repo)
    : list Repo :=
  match k, l with
  | S k', a :: b :: t =>
      if sw a b then b :: bubble sw k' (a :: t)
      else a :: bubble sw k' (b :: t)
  | _, _ => l
  end.

(** Two slices hold the same records up to their selected flags. *)
Definition same_records (l1 l2 : list Repo) : Prop :=
  map (set_Selected false) l1 = map (set_Selected false) l2.

(** What the selection keys keep of a model: the records of both slices up
    to their flags, the cursor, the window and the screen size. *)
Definition selection_only (m m' : Model) : Prop :=
  same_records (repos m') (repos m)
  /\ same_records (filteredRepos m') (filteredRepos m)
  /\ cursor m' = cursor m /\ offset m' = offset m
  /\ height m' = height m /\ filterOpts m' = filterOpts m.

(** What key [A] does to one record of the filtered view. *)
Definition select_unarchived (f : Repo) : Repo :=
  if IsArchived f then f else set_Selected true f.

(** * Properties *)

(** ** Filter *)
Section FilterFacts.
Context {rt : Runtime}.

(** The append loop of [Filter] collects, in input order, the records the
    loop body keeps. *)
Lemma Filter_loop (p : Repo -> bool) (rs acc : list Repo) :
  fold_left (fun result r => if p r then result ++ [r] else result) rs acc
  = acc ++ List.filter p rs.
Proof.
  revert acc. induction rs as [|r rs IH]; intros acc; simpl.
  - now rewrite app_nil_r.
  - rewrite IH. destruct (p r); simpl; [|reflexivity].
    now rewrite <- app_assoc.
Qed.

Lemma Filter_as_filter (now : Time) (rs : list Repo) (opts : FilterOptions) :
  Filter now rs opts = List.filter (keeps opts (cutoff_of now opts)) rs.
Proof. unfold Filter. now rewrite Filter_loop. Qed.

Lemma filter_twice {A} (p : A -> bool) (l : list A) :
  List.filter p (List.filter p l) = List.filter p l.
Proof.
  induction l as [|a l IH]; simpl; [reflexivity|].
  destruct (p a) eqn:E; simpl; [rewrite E; f_equal|]; exact IH.
Qed.

Lemma Filter_In (now : Time) (rs : list Repo) (opts : FilterOptions) (r : Repo) :
  In r (Filter now rs opts)
  <-> In r rs /\ keeps opts (cutoff_of now opts) r = true.
Proof. rewrite Filter_as_filter. apply filter_In. Qed.


(** C5. Filter is idempotent: with the clock read at one fixed time
    [now], filtering an already filtered list of records with the same
    options gives the same list. *)
Theorem Filter_idempotent (now : Time) (R : list Repo) (O : FilterOptions) :
  Filter now (Filter now R O) O = Filter now R O.
Proof. rewrite !Filter_as_filter. apply filter_twice. Qed.

(** C6. With show-private and show-public both false, the filtered list
    is empty whatever the records and the other options are. *)
Theorem Filter_no_visibility_empty
    (now : Time) (R : list Repo) (O : FilterOptions) :
  ShowPrivate O = false -> ShowPublic O = false -> Filter now R O = [].
Proof.
  intros Hpriv Hpub. rewrite Filter_as_filter.
  induction R as [|r R IH]; simpl; [reflexivity|].
  replace (keeps O (cutoff_of now O) r) with false; [exact IH|].
  unfold keeps. rewrite Hpriv, Hpub.
  destruct (IsArchived r), (ShowArchived O), (IsPrivate r); reflexivity.
Qed.
End FilterFacts.

Lemma Filter_no_visibility_empty_witness :
  let O := set_ShowPublic false (set_ShowPrivate false DefaultFilterOptions) in
  let R := [Examples.sample "a" 1 false; Examples.sample "b" 2 true] in
  R <> [] /\ Filter (rt := Examples.ascii_runtime) 0 R O = [].
Proof.
  split; [discriminate|].
  apply (Filter_no_visibility_empty 0); reflexivity.
Defined.

(** ** Sort *)
Section SortFacts.
Variables (sortBy : SortField) (desc : bool).

Lemma neighbours_split (l : list Repo) (j : nat) (a b : Repo) :
  l !! j = Some a -> l !! S j = Some b ->
  exists l1 l2,
    l = l1 ++ a :: b :: l2 /\ <[S j := a]> (<[j := b]> l) = l1 ++ b :: a :: l2.
Proof.
  revert j. induction l as [|x l IH]; intros j Ha Hb; [discriminate Ha|].
  destruct j as [|j].
  - destruct l as [|y l]; [discriminate Hb|].
    simpl in Ha, Hb. injection Ha as ->. injection Hb as ->.
    exists [], l. split; reflexivity.
  - simpl in Ha, Hb. destruct (IH j Ha Hb) as (l1 & l2 & E1 & E2).
    exists (x :: l1), l2. split; simpl.
    + now rewrite E1 at 1.
    + f_equal. exact E2.
Qed.

Lemma Sort_step_exchanges (l : list Repo) (j : nat) :
  rtc (exchange sortBy desc) l (Sort_step sortBy desc l j).
Proof.
  unfold Sort_step.
  destruct (l !! j) as [a|] eqn:Ha; [|apply rtc_refl].
  destruct (l !! S j) as [b|] eqn:Hb; [|apply rtc_refl].
  destruct (swap_wanted sortBy desc a b) eqn:W; [|apply rtc_refl].
  destruct (neighbours_split l j a b Ha Hb) as (l1 & l2 & E1 & E2).
  rewrite E2. rewrite E1 at 1. apply rtc_once. now constructor.
Qed.

Lemma Sort_pass_exchanges (n : nat) (l : list Repo) (i : nat) :
  rtc (exchange sortBy desc) l (Sort_pass sortBy desc n l i).
Proof.
  unfold Sort_pass. generalize (seq 0 (n - i - 1)). intros js.
  revert l. induction js as [|j js IH]; intros l; simpl; [apply rtc_refl|].
  eapply rtc_trans; [apply Sort_step_exchanges | apply IH].
Qed.

(** The whole sort is a sequence of such exchanges. *)
Lemma Sort_exchanges (l : list Repo) :
  rtc (exchange sortBy desc) l (Sort l sortBy desc).
Proof.
  unfold Sort. generalize (length l) at 1 2. intros n.
  generalize (seq 0 (n - 1)). intros ps.
  revert l. induction ps as [|i ps IH]; intros l; simpl; [apply rtc_refl|].
  eapply rtc_trans; [apply Sort_pass_exchanges | apply IH].
Qed.

(** A property of slices that every exchange keeps is kept by [Sort]. *)
Lemma Sort_preserves (P : list Repo -> Prop) (l : list Repo) :
  (forall l1 l2, exchange sortBy desc l1 l2 -> P l1 -> P l2) ->
  P l -> P (Sort l sortBy desc).
Proof.
  intros Hstep. generalize (Sort_exchanges l).
  generalize (Sort l sortBy desc). intros l' Hrtc.
  induction Hrtc as [|x y z Hxy _ IH]; eauto.
Qed.

Lemma exchange_Permutation (l1 l2 : list Repo) :
  exchange sortBy desc l1 l2 -> Permutation l1 l2.
Proof.
  intros [k1 a b k2 _]. apply Permutation_app_head. apply perm_swap.
Qed.

Lemma Sort_Permutation (l : list Repo) :
  Permutation l (Sort l sortBy desc).
Proof.
  apply (Sort_preserves (fun k => Permutation l k)); [|reflexivity].
  intros l1 l2 E P. etransitivity; [exact P | now apply exchange_Permutation].
Qed.

Lemma Sort_length (l : list Repo) :
  length (Sort l sortBy desc) = length l.
Proof. symmetry. apply Permutation_length, Sort_Permutation. Qed.

Lemma Sort_In (l : list Repo) (r : Repo) :
  In r (Sort l sortBy desc) <-> In r l.
Proof.
  split; apply Permutation_in;
    [symmetry|]; apply Sort_Permutation.
Qed.

Lemma Sort_Forall (P : Repo -> Prop) (l : list Repo) :
  Forall P l -> Forall P (Sort l sortBy desc).
Proof.
  rewrite !List.Forall_forall. intros H r Hr. apply H.
  now apply Sort_In.
Qed.
End SortFacts.

Lemma String_ltb_irrefl (s : string) : String.ltb s s = false.
Proof.
  unfold String.ltb.
  pose proof (String.compare_antisym s s) as H.
  destruct (String.compare s s); try reflexivity; discriminate H.
Qed.

(** Without the descending flag a swap is asked only for neighbours with
    different keys, so no record can tie with both. *)
Lemma swap_wanted_asc_keys (sortBy : SortField) (x a b : Repo) :
  swap_wanted sortBy false a b = true ->
  same_key sortBy x a && same_key sortBy x b = false.
Proof.
  intros W. apply andb_false_iff.
  destruct sortBy; cbn [swap_wanted same_key] in *; unfold time_Before in *;
    try (rewrite !Z.eqb_neq; apply Z.ltb_lt in W; lia).
  destruct (String.eqb_spec (Name x) (Name a)) as [Ea|]; [|now left].
  destruct (String.eqb_spec (Name x) (Name b)) as [Eb|]; [|now right].
  rewrite <- Ea, <- Eb, String_ltb_irrefl in W. discriminate W.
Qed.

(** X6. In the ascending direction [Sort] is stable: the records that tie with
    any given record come out in their input order. *)
Lemma Sort_stable_asc (sortBy : SortField) (l : list Repo) (x : Repo) :
  List.filter (same_key sortBy x) (Sort l sortBy false)
  = List.filter (same_key sortBy x) l.
Proof.
  apply (Sort_preserves sortBy false
           (fun k => List.filter (same_key sortBy x) k
                     = List.filter (same_key sortBy x) l)); [|reflexivity].
  intros l1 l2 [k1 a b k2 W] <-.
  apply (swap_wanted_asc_keys sortBy x) in W.
  rewrite !List.filter_app. f_equal. simpl.
  destruct (same_key sortBy x a), (same_key sortBy x b);
    try reflexivity; discriminate W.
Qed.

(** C1. With the descending flag set, [Sort] exchanges neighbours whose
    keys are equal: two records with the same star count come out in the
    reverse of their input order, so the sort is not stable in that
    direction, while it keeps them in order when the flag is clear. *)
Theorem Sort_desc_swaps_ties :
  let a := Examples.sample "a" 1 false in
  let b := Examples.sample "b" 1 false in
  same_key SortByStars a b = true
  /\ Sort [a; b] SortByStars true = [b; a]
  /\ Sort [a; b] SortByStars false = [a; b]
  /\ List.filter (same_key SortByStars a) (Sort [a; b] SortByStars true)
     <> List.filter (same_key SortByStars a) [a; b].
Proof. repeat split. discriminate. Qed.

(** ** The update loop *)

Section UpdateFacts.
Context {rt : Runtime}.

Lemma adjustOffset_offset_only (m : Model) :
  adjustOffset m = set_offset (offset (adjustOffset m)) m.
Proof.
  unfold adjustOffset.
  destruct (cursor m <? offset m) eqn:E1;
    match goal with |- context [if ?c then _ else _] => destruct c end;
    destruct m; reflexivity.
Qed.

Lemma applyFilters_unfold (now : Time) (m : Model) :
  let fr := filtered_view now (repos m) (filterOpts m) in
  applyFilters now m
  = adjustOffset
      (set_cursor (clamp_cursor (cursor m) (len fr)) (set_filteredRepos fr m)).
Proof.
  unfold applyFilters, clamp_cursor, filtered_view. f_equal.
  destruct m as [rs fr0 c u v cur off ld e msg isE o si w h sd sc].
  cbn [repos filterOpts set_filteredRepos filteredRepos].
  generalize (Filter now rs o). intros fl.
  generalize (Sort fl (SortBy o) (SortDesc o)). intros fr.
  cbn [set_filteredRepos set_cursor cursor filteredRepos].
  destruct (len fr <=? cur);
    cbn [set_filteredRepos set_cursor cursor filteredRepos];
    [destruct (len fr - 1 <? 0) | destruct (cur <? 0)]; reflexivity.
Qed.

Lemma applyFilters_repos now m : repos (applyFilters now m) = repos m.
Proof. rewrite applyFilters_unfold, adjustOffset_offset_only. reflexivity. Qed.

Lemma applyFilters_filterOpts now m :
  filterOpts (applyFilters now m) = filterOpts m.
Proof. rewrite applyFilters_unfold, adjustOffset_offset_only. reflexivity. Qed.


Lemma applyFilters_filteredRepos now m :
  filteredRepos (applyFilters now m)
  = filtered_view now (repos m) (filterOpts m).
Proof. rewrite applyFilters_unfold, adjustOffset_offset_only. reflexivity. Qed.

Lemma applyFilters_cursor now m :
  cursor (applyFilters now m)
  = clamp_cursor (cursor m)
      (len (filtered_view now (repos m) (filterOpts m))).
Proof. rewrite applyFilters_unfold, adjustOffset_offset_only. reflexivity. Qed.

Lemma clamp_cursor_range (c n : Z) :
  0 <= n ->
  0 <= clamp_cursor c n
  /\ (n = 0 -> clamp_cursor c n = 0)
  /\ (0 < n -> clamp_cursor c n <= n - 1).
Proof.
  intros Hn. unfold clamp_cursor.
  destruct (Z.leb_spec n c);
    match goal with
    | |- context [?a <? 0] => destruct (Z.ltb_spec a 0)
    end; lia.
Qed.

Lemma len_nil_iff {A} (l : list A) : len l = 0 <-> l = [].
Proof.
  unfold len. destruct l; simpl; split; intros H;
    try reflexivity; try discriminate H; lia.
Qed.

Lemma len_nonneg {A} (l : list A) : 0 <= len l.
Proof. unfold len. lia. Qed.

Lemma applyFilters_cursor_valid (now : Time) (m : Model) :
  cursor_valid (applyFilters now m).
Proof.
  unfold cursor_valid.
  rewrite applyFilters_cursor, applyFilters_filteredRepos.
  set (fr := filtered_view now (repos m) (filterOpts m)).
  destruct (clamp_cursor_range (cursor m) (len fr) (len_nonneg fr))
    as (H0 & Hempty & Hpos).
  split; [exact H0|]. split.
  - intros E. apply Hempty. now apply len_nil_iff.
  - intros NE. apply Hpos.
    destruct (Z.eq_dec (len fr) 0) as [E|E].
    + now apply len_nil_iff in E.
    + pose proof (len_nonneg fr). lia.
Qed.

(** Changing the message does not move the cursor or the view. *)
Lemma cursor_valid_set_message (s : string) (m : Model) :
  cursor_valid m -> cursor_valid (set_message s m).
Proof. exact (fun H => H). Qed.

(** C4. After every fold that changes the record set and after every
    key that changes a filter, the sort or the search text, the update
    returns a model whose cursor lies in [0, len(filtered)-1], and is 0
    when the filtered view is empty. *)
Theorem cursor_valid_after_recompute (now : Time) (m : Model) (msg : Msg) :
  recomputes_view m msg = true ->
  exists m' cmds, Update now m msg = Some (m', cmds) /\ cursor_valid m'.
Proof.
  destruct msg as [key| | |rs u|rs u fresh|[new|]| |name|name| |];
    cbn [recomputes_view Update]; try discriminate; intros H.
  - (* keys *)
    unfold handleKeyPress.
    destruct (view m) eqn:V; try discriminate H.
    + (* list screen *)
      destruct (Focused (searchInput m)) eqn:F.
      * rewrite andb_false_r. unfold handleListKeys. rewrite F.
        destruct (key_in key ["enter"; "esc"]);
          eexists _, _; (split; [reflexivity|]);
          apply applyFilters_cursor_valid.
      * simpl in H. rewrite !orb_true_iff in H.
        repeat (destruct H as [H|H]; [apply String.eqb_eq in H; subst key|]);
          try discriminate H;
          unfold handleListKeys; rewrite F; simpl;
          eexists _, _; (split; [reflexivity|]);
          apply applyFilters_cursor_valid.
    + (* filter panel *)
      rewrite andb_false_r. simpl in H. rewrite !orb_true_iff in H.
      repeat (destruct H as [H|H]; [apply String.eqb_eq in H; subst key|]);
        try discriminate H;
        unfold handleFilterKeys; simpl;
        eexists _, _; (split; [reflexivity|]);
        apply applyFilters_cursor_valid.
  - eexists _, _. split; [reflexivity|].
    apply cursor_valid_set_message, applyFilters_cursor_valid.
  - destruct fresh; eexists _, _; (split; [reflexivity|]);
      apply cursor_valid_set_message, applyFilters_cursor_valid.
  - eexists _, _. split; [reflexivity|].
    apply cursor_valid_set_message, applyFilters_cursor_valid.
  - eexists _, _. split; [reflexivity|]. apply applyFilters_cursor_valid.
  - eexists _, _. split; [reflexivity|]. apply applyFilters_cursor_valid.
Qed.
End UpdateFacts.

Lemma cursor_valid_after_recompute_witness :
  let rt := Examples.ascii_runtime in
  let rs := [Examples.sample "a" 1 false; Examples.sample "b" 2 false] in
  let m := set_cursor 7 (set_filteredRepos rs (set_repos rs NewModel)) in
  exists m' cmds,
    Update 0 m (deleteCompleteMsg "octo/b") = Some (m', cmds)
    /\ cursor_valid m'.
Proof.
  intros rt rs m.
  apply (cursor_valid_after_recompute 0 m (deleteCompleteMsg "octo/b")).
  reflexivity.
Defined.

(** ** Merging a background refresh *)
Section MergeFacts.

Lemma selected_names_loop (rs : list Repo) (acc : gmap string bool)
    (name : string) :
  names_get
    (fold_left
       (fun selectedNames r =>
          if Selected r then <[FullName r := true]> selectedNames
          else selectedNames)
       rs acc)
    name
  = selected_in rs name || names_get acc name.
Proof.
  revert acc. induction rs as [|r rs IH]; intros acc; [reflexivity|].
  cbn [fold_left selected_in existsb]. rewrite IH.
  destruct (Selected r) eqn:S.
  - unfold names_get at 1. rewrite lookup_insert.
    destruct (String.eqb_spec (FullName r) name) as [E|NE].
    + rewrite decide_True by exact E. simpl. now rewrite orb_true_r.
    + rewrite decide_False by exact NE. reflexivity.
  - now rewrite andb_false_r.
Qed.

Lemma selected_names_get (rs : list Repo) (name : string) :
  names_get (selected_names rs) name = selected_in rs name.
Proof.
  unfold selected_names. rewrite selected_names_loop.
  unfold names_get. rewrite lookup_empty. apply orb_false_r.
Qed.

Lemma restore_loop (sn : gmap string bool) (n k : nat) (l : list Repo)
    (j : nat) :
  fold_left
    (fun rs i =>
       match rs !! i with
       | Some r =>
           if names_get sn (FullName r)
           then alter (set_Selected true) i rs
           else rs
       | None => rs
       end)
    (seq k n) l !! j
  = if decide (k <= j < k + n)%nat
    then restore_one sn <$> l !! j
    else l !! j.
Proof.
  revert k l. induction n as [|n IH]; intros k l.
  - simpl. rewrite decide_False by lia. reflexivity.
  - cbn [seq fold_left]. rewrite IH.
    set (l' := match l !! k with
               | Some r => if names_get sn (FullName r)
                           then alter (set_Selected true) k l else l
               | None => l
               end).
    assert (Hk : l' !! k = restore_one sn <$> l !! k).
    { unfold l', restore_one. destruct (l !! k) as [r|] eqn:E.
      - destruct (names_get sn (FullName r)) eqn:G.
        + rewrite list_lookup_alter_eq, E. simpl. now rewrite G.
        + rewrite E. simpl. now rewrite G.
      - rewrite E. reflexivity. }
    assert (Hne : forall i, i <> k -> l' !! i = l !! i).
    { intros i NE. unfold l'. destruct (l !! k) as [r|]; [|reflexivity].
      destruct (names_get sn (FullName r)); [|reflexivity].
      apply list_lookup_alter_ne. congruence. }
    destruct (decide (S k <= j < S k + n)%nat) as [In1|Out1].
    + rewrite decide_True by lia. rewrite Hne by lia. reflexivity.
    + destruct (decide (j = k)) as [->|NE].
      * rewrite decide_True by lia. exact Hk.
      * rewrite decide_False by lia. apply Hne. exact NE.
Qed.

Lemma restore_selection_map (sn : gmap string bool) (rs : list Repo) :
  restore_selection sn rs = map (restore_one sn) rs.
Proof.
  apply list_eq. intros j. unfold restore_selection.
  rewrite restore_loop, list_lookup_fmap.
  destruct (decide (0 <= j < 0 + length rs)%nat) as [In1|Out1];
    [reflexivity|].
  rewrite (lookup_ge_None_2 rs j) by lia. reflexivity.
Qed.

Lemma set_Selected_same (r : Repo) (b : bool) :
  Selected r = b -> set_Selected b r = r.
Proof. intros <-. destruct r; reflexivity. Qed.

Lemma set_Selected_twice (r : Repo) (b c : bool) :
  set_Selected b (set_Selected c r) = set_Selected b r.
Proof. reflexivity. Qed.

(** On records that arrive unselected the code's merge is the stated
    merge. *)
Lemma restore_selection_merge (old new : list Repo) :
  Forall (fun r => Selected r = false) new ->
  restore_selection (selected_names old) new = merge_by_identifier old new.
Proof.
  intros Hnew. rewrite restore_selection_map. unfold merge_by_identifier.
  apply map_ext_in. intros r Hr.
  rewrite List.Forall_forall in Hnew. specialize (Hnew r Hr).
  unfold restore_one. rewrite selected_names_get.
  destruct (selected_in old (FullName r)); [reflexivity|].
  symmetry. now apply set_Selected_same.
Qed.

Lemma selected_in_spec (old : list Repo) (name : string) :
  selected_in old name = true
  <-> exists o, In o old /\ FullName o = name /\ Selected o = true.
Proof.
  unfold selected_in. rewrite existsb_exists. split.
  - intros (o & Ho & H). apply andb_true_iff in H as [E S].
    apply String.eqb_eq in E. eauto.
  - intros (o & Ho & E & S). exists o. split; [exact Ho|].
    apply andb_true_iff. split; [now apply String.eqb_eq | exact S].
Qed.
End MergeFacts.

Section FoldFacts.
Context {rt : Runtime}.

(** The outcome of each fold that recomputes the view, by projections. *)
Lemma Update_backgroundRefresh (now : Time) (m : Model) (new : list Repo) :
  exists m',
    Update now m (backgroundRefreshMsg (Some new)) = Some (m', [])
    /\ repos m' = restore_selection (selected_names (repos m)) new
    /\ filteredRepos m' = filtered_view now (repos m') (filterOpts m).
Proof.
  set (m1 := applyFilters now
               (set_repos
                  (restore_selection (selected_names (repos m))
                                     (repos (set_repos new m)))
                  (set_repos new m))).
  exists (set_message
            (sprintf_d "Refreshed " (len (repos m1)) " repositories") m1).
  split; [reflexivity|].
  change (repos (set_message ?s m1)) with (repos m1).
  change (filteredRepos (set_message ?s m1)) with (filteredRepos m1).
  unfold m1. rewrite applyFilters_repos, applyFilters_filteredRepos.
  split; reflexivity.
Qed.


Lemma Update_reposLoaded (now : Time) (m : Model)
    (rs : option (list Repo)) (user : string) :
  exists m',
    Update now m (reposLoadedMsg rs user) = Some (m', [])
    /\ repos m' = elems rs
    /\ filteredRepos m' = filtered_view now (elems rs) (filterOpts m).
Proof.
  set (m1 := applyFilters now
               (set_client true
                  (set_username user
                     (set_repos (elems rs) (set_loading false m))))).
  exists (set_message
            (sprintf_d "Loaded " (len (repos m1)) " repositories") m1).
  split; [reflexivity|].
  change (repos (set_message ?s m1)) with (repos m1).
  change (filteredRepos (set_message ?s m1)) with (filteredRepos m1).
  unfold m1. rewrite applyFilters_repos, applyFilters_filteredRepos.
  split; reflexivity.
Qed.

(** C3 (amended). For every current record set and every non-nil
    background-refresh result set whose records arrive unselected, as
    fetched records do, the fold replaces the record set with the new set
    in which a record is selected iff a record with the same identifier
    was selected in the old set; records only in the new set are
    unselected and records absent from it are gone.  A nil result set is
    ignored and the model is returned as it was. *)
Theorem backgroundRefresh_merges (now : Time) (m : Model) (new : list Repo) :
  Forall (fun r => Selected r = false) new ->
  (exists m',
      Update now m (backgroundRefreshMsg (Some new)) = Some (m', [])
      /\ repos m' = merge_by_identifier (repos m) new
      /\ map (set_Selected false) (repos m') = new
      /\ (forall r', In r' (repos m') ->
            (Selected r' = true
             <-> exists o, In o (repos m)
                           /\ FullName o = FullName r'
                           /\ Selected o = true))
      /\ filteredRepos m' = filtered_view now (repos m') (filterOpts m))
  /\ Update now m (backgroundRefreshMsg None) = Some (m, []).
Proof.
  intros Hnew. split; [|reflexivity].
  destruct (Update_backgroundRefresh now m new) as (m' & HU & Hr & Hf).
  exists m'. split; [exact HU|].
  rewrite restore_selection_merge in Hr by exact Hnew.
  split; [exact Hr|]. split; [|split].
  - rewrite Hr. unfold merge_by_identifier. rewrite map_map.
    rewrite <- (map_id new) at 2. apply map_ext_in. intros r Hin.
    rewrite set_Selected_twice. apply set_Selected_same.
    rewrite List.Forall_forall in Hnew. now apply Hnew.
  - rewrite Hr. intros r' Hr'. unfold merge_by_identifier in Hr'.
    apply in_map_iff in Hr' as (r & <- & Hin).
    cbn [Selected FullName set_Selected]. apply selected_in_spec.
  - exact Hf.
Qed.

(** *** Archive completion *)



(** The first record carrying an identifier that occurs in the set. *)
Lemma first_named (name : string) (rs : list Repo) :
  (exists r, In r rs /\ FullName r = name) ->
  exists l1 r l2,
    rs = l1 ++ r :: l2
    /\ (forall x, In x l1 -> FullName x <> name)
    /\ FullName r = name.
Proof.
  induction rs as [|a rs IH]; intros (r & Hr & E); [destruct Hr|].
  destruct (String.eqb_spec (FullName a) name) as [Ea|NE].
  - exists [], a, rs. repeat split; [intros x []| exact Ea].
  - destruct Hr as [->|Hr]; [contradiction|].
    destruct IH as (l1 & r1 & l2 & -> & Hl1 & E1); [eauto|].
    exists (a :: l1), r1, l2. repeat split; [|exact E1].
    intros x [<-|Hx]; [exact NE | now apply Hl1].
Qed.



(** *** Dispatch on the confirmation screens *)

Lemma dispatch_loop {A} (p : Repo -> bool) (f : Repo -> A)
    (rs : list Repo) (acc : list A) :
  fold_left (fun cmds r => if p r then cmds ++ [f r] else cmds) rs acc
  = acc ++ map f (List.filter p rs).
Proof.
  revert acc. induction rs as [|r rs IH]; intros acc; simpl.
  - now rewrite app_nil_r.
  - rewrite IH. destruct (p r); simpl; [|reflexivity].
    now rewrite <- app_assoc.
Qed.

(** C8. On Confirm-Archive, [y] returns at once with the List screen and
    a batch holding exactly one operation for each record that is
    selected and not archived, in record order, each carrying that
    record's identifier; on Confirm-Delete, one for each selected record.
    An operation resolves to the completion of its own identifier or to
    an error. *)
Theorem confirm_yes_dispatches (now : Time) (m : Model) (key : string) :
  key = "y" \/ key = "Y" ->
  (view m = ViewConfirmArchive ->
   Update now m (KeyMsg key)
   = Some (set_view ViewList m,
           map (fun r => Cmd_archive (client m) (FullName r))
               (List.filter (fun r => Selected r && negb (IsArchived r))
                            (repos m))))
  /\ (view m = ViewConfirmDelete ->
      Update now m (KeyMsg key)
      = Some (set_view ViewList m,
              map (fun r => Cmd_delete (client m) (FullName r))
                  (List.filter Selected (repos m))))
  /\ (forall provider c name,
        (run_archive provider c name = archiveCompleteMsg name
         \/ exists e, run_archive provider c name = errorMsg e)
        /\ (run_delete provider c name = deleteCompleteMsg name
            \/ exists e, run_delete provider c name = errorMsg e)).
Proof.
  intros Hkey. split; [|split].
  - intros V. cbn [Update]. unfold handleKeyPress. rewrite V.
    rewrite andb_false_r. unfold handleConfirmArchiveKeys, archive_cmds.
    rewrite (dispatch_loop _ (fun r => Cmd_archive (client m) (FullName r))).
    destruct Hkey as [-> | ->]; reflexivity.
  - intros V. cbn [Update]. unfold handleKeyPress. rewrite V.
    rewrite andb_false_r. unfold handleConfirmDeleteKeys, delete_cmds.
    rewrite (dispatch_loop _ (fun r => Cmd_delete (client m) (FullName r))).
    destruct Hkey as [-> | ->]; reflexivity.
  - intros provider c name. unfold run_archive, run_delete.
    destruct c; [destruct (provider name)|]; split; eauto.
Qed.

(** *** Errors *)


(** *** Loading *)

Lemma ListRepos_page (nodes : list Node) (acc : option (list Repo)) :
  elems (fold_left
           (fun allRepos r => Some (elems allRepos ++ [repo_of_node r]))
           nodes acc)
  = elems acc ++ map repo_of_node nodes.
Proof.
  revert acc. induction nodes as [|n nodes IH]; intros acc; simpl.
  - now rewrite app_nil_r.
  - rewrite IH. simpl. now rewrite <- app_assoc.
Qed.

(** [ListRepos] returns the records built from all nodes, in order. *)
Lemma ListRepos_elems (pages : list (list Node)) :
  elems (fst (ListRepos (FetchPages pages)))
  = map repo_of_node (concat pages).
Proof.
  cbn [ListRepos fst].
  change (map repo_of_node (concat pages))
    with (elems (A := Repo) None ++ map repo_of_node (concat pages)).
  generalize (@None (list Repo)). intros acc.
  revert acc. induction pages as [|nodes pages IH]; intros acc; simpl.
  - now rewrite app_nil_r.
  - rewrite IH, ListRepos_page, map_app. now rewrite app_assoc.
Qed.

Lemma fetched_unselected (nodes : list Node) :
  Forall (fun r => Selected r = false) (map repo_of_node nodes).
Proof. apply List.Forall_forall. intros r Hr.
  apply in_map_iff in Hr as (n & <- & _). reflexivity.
Qed.

(** C10. Folding a load or forced-refresh success sets the record set to
    exactly the records the message carries and recomputes the view from
    them.  A forced refresh that succeeded carries the records built from
    the fetched nodes, all unselected, so afterwards no record of the set
    or of the view is selected, whatever was selected before. *)
Theorem load_replaces_wholesale (now : Time) (m : Model) :
  (forall rs user,
      exists m',
        Update now m (reposLoadedMsg rs user) = Some (m', [])
        /\ repos m' = elems rs
        /\ filteredRepos m' = filtered_view now (elems rs) (filterOpts m))
  /\ (forall user pages,
        exists rs m',
          forceRefreshRepos (inr user) (FetchPages pages)
          = reposLoadedMsg rs user
          /\ elems rs = map repo_of_node (concat pages)
          /\ Update now m (reposLoadedMsg rs user) = Some (m', [])
          /\ repos m' = elems rs
          /\ Forall (fun r => Selected r = false) (repos m')
          /\ Forall (fun r => Selected r = false) (filteredRepos m')).
Proof.
  pose proof (Update_reposLoaded now m) as Hfold.
  split; [exact Hfold|].
  intros user pages.
  destruct (Hfold (fst (ListRepos (FetchPages pages))) user)
    as (m' & HU & Hr & Hf).
  exists (fst (ListRepos (FetchPages pages))), m'.
  pose proof (ListRepos_elems pages) as HL.
  assert (Hun : Forall (fun r => Selected r = false) (repos m')).
  { rewrite Hr, HL. apply fetched_unselected. }
  repeat split; try assumption.
  rewrite Hf. unfold filtered_view. apply Sort_Forall.
  apply List.Forall_forall. intros r Hin. apply Filter_In in Hin as [Hin _].
  rewrite <- Hr in Hin. rewrite List.Forall_forall in Hun. now apply Hun.
Qed.
End FoldFacts.

(** ** The model evaluated on concrete runs *)
(** C2. Load one record, select it with space, open Confirm-Archive
    with [a] and dismiss it with [n]: the run ends on the List screen
    with the record unselected in the record set and still selected in
    the filtered view, so the view's flag differs from the flag of the
    record with the same identifier. *)
Theorem dismiss_leaves_view_selected :
  let rt := Examples.ascii_runtime in
  let a := Examples.sample "a" 1 false in
  exists m,
    run NewModel
        [(0, reposLoadedMsg (Some [a]) "octo"); (0, KeyMsg " ");
         (0, KeyMsg "a"); (0, KeyMsg "n")]
    = Some m
    /\ view m = ViewList
    /\ map FullName (repos m) = ["octo/a"]
    /\ map FullName (filteredRepos m) = ["octo/a"]
    /\ map Selected (repos m) = [false]
    /\ map Selected (filteredRepos m) = [true].
Proof.
  intros rt a. eexists. split; [vm_compute; reflexivity|]. repeat split.
Qed.

(** A background refresh whose fetch found no repository carries the nil
    slice; folding it keeps the old record, selected as before, where the
    stated merge with the empty new set would leave no record. *)
Lemma backgroundRefresh_nil_keeps_set :
  let rt := Examples.ascii_runtime in
  let a := Examples.sample "a" 1 false in
  exists m m',
    run NewModel [(0, reposLoadedMsg (Some [a]) "octo"); (0, KeyMsg " ")]
    = Some m
    /\ refreshRepos (FetchPages [[]]) = Some (backgroundRefreshMsg None)
    /\ Update 0 m (backgroundRefreshMsg None) = Some (m', [])
    /\ map Selected (repos m') = [true]
    /\ repos m' <> merge_by_identifier (repos m) (elems None).
Proof.
  intros rt a. eexists _, _. split; [vm_compute; reflexivity|].
  split; [reflexivity|]. split; [reflexivity|].
  split; [reflexivity | discriminate].
Qed.

Lemma backgroundRefresh_merges_witness :
  let rt := Examples.ascii_runtime in
  let m := set_repos [Examples.sample "x" 1 true; Examples.sample "z" 3 true]
                     NewModel in
  let new := [Examples.sample "y" 0 false; Examples.sample "x" 5 false] in
  Forall (fun r => Selected r = false) new
  /\ exists m',
       Update 0 m (backgroundRefreshMsg (Some new)) = Some (m', [])
       /\ repos m' = merge_by_identifier (repos m) new.
Proof.
  intros rt m new.
  assert (Hnew : Forall (fun r => Selected r = false) new)
    by (repeat constructor).
  split; [exact Hnew|].
  destruct (backgroundRefresh_merges 0 m new Hnew)
    as [(m' & HU & Hr & _) _].
  exists m'. split; [exact HU | exact Hr].
Defined.


Lemma confirm_yes_dispatches_witness :
  let rt := Examples.ascii_runtime in
  let rs := [Examples.sample "a" 1 true; Examples.sample "b" 2 false;
             set_IsArchived true (Examples.sample "c" 3 true)] in
  let ma := set_view ViewConfirmArchive (set_repos rs NewModel) in
  let md := set_view ViewConfirmDelete (set_repos rs NewModel) in
  Update 0 ma (KeyMsg "y")
  = Some (set_view ViewList ma, [Cmd_archive false "octo/a"])
  /\ Update 0 md (KeyMsg "y")
     = Some (set_view ViewList md,
             [Cmd_delete false "octo/a"; Cmd_delete false "octo/c"]).
Proof.
  intros rt rs ma md. split.
  - exact (proj1 (confirm_yes_dispatches 0 ma "y" (or_introl eq_refl)) eq_refl).
  - exact (proj1 (proj2 (confirm_yes_dispatches 0 md "y" (or_introl eq_refl)))
                 eq_refl).
Defined.


(** * Further properties of the code *)

(** ** Filter *)
Section FilterMore.
Context {rt : Runtime}.

Lemma filter_sublist {A} (p : A -> bool) (l : list A) :
  sublist (List.filter p l) l.
Proof.
  induction l as [|a l IH]; simpl; [constructor|].
  destruct (p a); now constructor.
Qed.

(** X1. [Filter] returns the kept records unmodified and in input order: its
    result is a subsequence of its input. *)
Theorem Filter_sublist (now : Time) (R : list Repo) (O : FilterOptions) :
  sublist (Filter now R O) R.
Proof. rewrite Filter_as_filter. apply filter_sublist. Qed.

Lemma Filter_default (now : Time) (R : list Repo) :
  Filter now R DefaultFilterOptions
  = List.filter (fun r => negb (IsArchived r)) R.
Proof.
  rewrite Filter_as_filter. apply filter_ext. intros r.
  unfold keeps. cbn.
  destruct (IsArchived r), (IsPrivate r), (IsFork r); reflexivity.
Qed.

(** X2. Under the default options [Filter] drops exactly the archived records:
    every other criterion is disabled by its default. *)
Theorem Filter_default_hides_archived (now : Time) (R : list Repo) :
  Filter now R DefaultFilterOptions
  = List.filter (fun r => negb (IsArchived r)) R.
Proof.
  rewrite Filter_as_filter. apply filter_ext. intros r.
  unfold keeps. cbn.
  destruct (IsArchived r), (IsPrivate r), (IsFork r); reflexivity.
Qed.

(** X3. The clock matters only to the inactivity criterion: with the threshold
    at 0 (or below) the result is the same at every time. *)
Theorem Filter_clock_irrelevant (now now' : Time) (R : list Repo)
    (O : FilterOptions) :
  InactiveForDays O <= 0 -> Filter now R O = Filter now' R O.
Proof.
  intros H. rewrite !Filter_as_filter. unfold cutoff_of.
  replace (0 <? InactiveForDays O) with false
    by (symmetry; apply Z.ltb_ge; exact H).
  reflexivity.
Qed.

(** X4. Every record [Filter] returns meets each enabled criterion: the
    visibility toggles, the star bounds that are not negative, and the
    inactivity cutoff when the threshold is positive. *)
Theorem Filter_kept_meets_criteria (now : Time) (R : list Repo)
    (O : FilterOptions) (r : Repo) :
  In r (Filter now R O) ->
  (IsArchived r = true -> ShowArchived O = true)
  /\ (IsPrivate r = true -> ShowPrivate O = true)
  /\ (IsPrivate r = false -> ShowPublic O = true)
  /\ (IsFork r = true -> ShowForks O = true)
  /\ (0 <= MinStars O -> MinStars O <= StargazerCount r)
  /\ (0 <= MaxStars O -> StargazerCount r <= MaxStars O)
  /\ (0 < InactiveForDays O ->
      PushedAt r <= time_AddDays now (- InactiveForDays O)).
Proof.
  intros Hin. apply Filter_In in Hin as [_ K].
  unfold keeps, cutoff_of, time_After in K.
  destruct (IsArchived r), (ShowArchived O); try discriminate K;
    destruct (IsPrivate r), (ShowPrivate O), (ShowPublic O);
    try discriminate K;
    destruct (IsFork r), (ShowForks O); try discriminate K;
    cbn [andb negb] in K;
    match type of K with
    | (if ?c then _ else _) = _ => destruct c; [discriminate K|]
    end;
    destruct (Z.leb_spec 0 (MinStars O));
    destruct (Z.ltb_spec (StargazerCount r) (MinStars O));
    try discriminate K;
    destruct (Z.leb_spec 0 (MaxStars O));
    destruct (Z.ltb_spec (MaxStars O) (StargazerCount r));
    try discriminate K;
    destruct (Z.ltb_spec 0 (InactiveForDays O)); cbn [andb] in K;
    try (destruct (Z.ltb_spec (time_AddDays now (- InactiveForDays O))
                              (PushedAt r)); [discriminate K|]);
    repeat split; intros; try congruence; try lia.
Qed.
End FilterMore.

Lemma Filter_clock_irrelevant_witness :
  let rt := Examples.ascii_runtime in
  let R := [Examples.sample "a" 1 false; Examples.sample "b" 2 true] in
  InactiveForDays DefaultFilterOptions <= 0
  /\ Filter 0 R DefaultFilterOptions = Filter 1000000 R DefaultFilterOptions.
Proof.
  intros rt R. assert (H : InactiveForDays DefaultFilterOptions <= 0)
    by (vm_compute; discriminate).
  split; [exact H|]. exact (Filter_clock_irrelevant 0 1000000 R _ H).
Defined.

Lemma Filter_kept_meets_criteria_witness :
  let rt := Examples.ascii_runtime in
  let O := set_InactiveForDays 30 DefaultFilterOptions in
  let r := Examples.sample "a" 1 false in
  In r (Filter 3000000 [r] O) /\ PushedAt r <= 3000000 + 86400 * - 30.
Proof.
  intros rt O r. assert (H : In r (Filter 3000000 [r] O)) by (left; reflexivity).
  split; [exact H|].
  destruct (Filter_kept_meets_criteria 3000000 [r] O r H)
    as (_ & _ & _ & _ & _ & _ & Hc).
  apply Hc. reflexivity.
Defined.

(** ** Sort *)

Lemma Ascii_compare_refl (c : ascii) : Ascii.compare c c = Eq.
Proof. unfold Ascii.compare. apply N.compare_refl. Qed.

Lemma String_compare_refl (s : string) : String.compare s s = Eq.
Proof.
  induction s as [|c s IH]; simpl; [reflexivity|].
  now rewrite Ascii_compare_refl.
Qed.

Lemma String_compare_Lt_trans (a b c : string) :
  String.compare a b = Lt -> String.compare b c = Lt ->
  String.compare a c = Lt.
Proof.
  revert b c. induction a as [|x a IH]; intros [|y b] [|z c]; simpl;
    try discriminate; try reflexivity.
  destruct (Ascii.compare x y) eqn:Exy; try discriminate;
    destruct (Ascii.compare y z) eqn:Eyz; try discriminate; intros H1 H2.
  - apply Ascii.compare_eq_iff in Exy, Eyz. subst y z.
    rewrite Ascii_compare_refl. now apply (IH b c).
  - apply Ascii.compare_eq_iff in Exy. subst y. now rewrite Eyz.
  - apply Ascii.compare_eq_iff in Eyz. subst z. now rewrite Exy.
  - unfold Ascii.compare in *. rewrite N.compare_lt_iff in Exy, Eyz.
    assert (E : (N_of_ascii x ?= N_of_ascii z)%N = Lt)
      by (apply N.compare_lt_iff; lia).
    now rewrite E.
Qed.

Lemma String_leb_trans (a b c : string) :
  String.leb a b = true -> String.leb b c = true -> String.leb a c = true.
Proof.
  unfold String.leb. intros Hab Hbc.
  destruct (String.compare a c) eqn:Eac; try reflexivity. exfalso.
  destruct (String.compare a b) eqn:Eab; try discriminate Hab.
  - apply String.compare_eq_iff in Eab. subst b.
    rewrite Eac in Hbc. discriminate Hbc.
  - destruct (String.compare b c) eqn:Ebc; try discriminate Hbc.
    + apply String.compare_eq_iff in Ebc. subst c. congruence.
    + pose proof (String_compare_Lt_trans a b c Eab Ebc). congruence.
Qed.

Lemma String_ltb_leb (a b : string) :
  String.ltb a b = true -> String.leb a b = true.
Proof. unfold String.ltb, String.leb. destruct (String.compare a b); auto. Qed.

Lemma String_not_ltb_leb (a b : string) :
  String.ltb b a = false -> String.leb a b = true.
Proof.
  unfold String.ltb, String.leb. rewrite (String.compare_antisym b a).
  destruct (String.compare a b); simpl; intros H;
    [reflexivity | reflexivity | discriminate H].
Qed.

Section SortOrder.
Variables (sortBy : SortField) (desc : bool).

(** After a swap the pair is in order. *)
Lemma swap_puts_in_order (a b : Repo) :
  swap_wanted sortBy desc a b = true -> in_order sortBy desc b a = true.
Proof.
  unfold swap_wanted, in_order, time_Before.
  destruct sortBy, desc; intros W;
    try (apply negb_true_iff in W);
    try (apply Z.leb_le; first [apply Z.ltb_lt in W | apply Z.ltb_ge in W]; lia).
  - now apply String_not_ltb_leb.
  - now apply String_ltb_leb.
Qed.

(** A pair that is left alone is in order. *)
Lemma kept_is_in_order (a b : Repo) :
  swap_wanted sortBy desc a b = false -> in_order sortBy desc a b = true.
Proof.
  unfold swap_wanted, in_order, time_Before.
  destruct sortBy, desc; intros W;
    try (apply negb_false_iff in W);
    try (apply Z.leb_le; first [apply Z.ltb_lt in W | apply Z.ltb_ge in W]; lia).
  - now apply String_ltb_leb.
  - now apply String_not_ltb_leb.
Qed.

Lemma in_order_trans (a b c : Repo) :
  in_order sortBy desc a b = true -> in_order sortBy desc b c = true ->
  in_order sortBy desc a c = true.
Proof.
  unfold in_order.
  destruct sortBy, desc; intros H1 H2;
    try (apply Z.leb_le; apply Z.leb_le in H1, H2; lia).
  - exact (String_leb_trans _ _ _ H2 H1).
  - exact (String_leb_trans _ _ _ H1 H2).
Qed.

Lemma Sort_step_nil (j : nat) : Sort_step sortBy desc [] j = [].
Proof. reflexivity. Qed.

Lemma Sort_step_cons (x : Repo) (l : list Repo) (j : nat) :
  Sort_step sortBy desc (x :: l) (S j) = x :: Sort_step sortBy desc l j.
Proof.
  unfold Sort_step. cbn [lookup list_lookup].
  change ((x :: l) !! S j) with (l !! j).
  change ((x :: l) !! S (S j)) with (l !! S j).
  destruct (l !! j) as [a|]; [|reflexivity].
  destruct (l !! S j) as [b|]; [|reflexivity].
  destruct (swap_wanted sortBy desc a b); reflexivity.
Qed.

Lemma Sort_steps_shift (x : Repo) (k j : nat) (l : list Repo) :
  fold_left (Sort_step sortBy desc) (seq (S j) k) (x :: l)
  = x :: fold_left (Sort_step sortBy desc) (seq j k) l.
Proof.
  revert j l. induction k as [|k IH]; intros j l; [reflexivity|].
  cbn [seq fold_left]. rewrite Sort_step_cons. apply IH.
Qed.

Lemma Sort_steps_nil (k j : nat) :
  fold_left (Sort_step sortBy desc) (seq j k) [] = [].
Proof. revert j. induction k as [|k IH]; intros j; [reflexivity|]. apply IH. Qed.

(** The inner loop of [Sort] is one [bubble] pass. *)
Lemma Sort_pass_bubble (n : nat) (l : list Repo) (i : nat) :
  Sort_pass sortBy desc n l i
  = bubble (swap_wanted sortBy desc) (n - i - 1) l.
Proof.
  unfold Sort_pass. generalize (n - i - 1)%nat. intros k.
  revert l. induction k as [|k IH]; intros l; [reflexivity|].
  cbn [seq fold_left].
  destruct l as [|a [|b t]].
  - rewrite Sort_step_nil. apply Sort_steps_nil.
  - change (Sort_step sortBy desc [a] 0) with [a].
    rewrite Sort_steps_shift, Sort_steps_nil. reflexivity.
  - change (Sort_step sortBy desc (a :: b :: t) 0)
      with (if swap_wanted sortBy desc a b then b :: a :: t else a :: b :: t).
    cbn [bubble].
    destruct (swap_wanted sortBy desc a b);
      rewrite Sort_steps_shift, IH; reflexivity.
Qed.

Lemma bubble_app (k : nat) (p t : list Repo) :
  length p = S k ->
  bubble (swap_wanted sortBy desc) k (p ++ t)
  = bubble (swap_wanted sortBy desc) k p ++ t.
Proof.
  revert p. induction k as [|k IH]; intros p Hp.
  - destruct p; reflexivity.
  - destruct p as [|a [|b p]]; try discriminate Hp.
    cbn [bubble app]. injection Hp as Hp.
    destruct (swap_wanted sortBy desc a b);
      rewrite <- app_comm_cons; f_equal;
      rewrite app_comm_cons; apply IH; simpl; lia.
Qed.

(** A pass over a whole slice moves a greatest element to its end. *)
Lemma bubble_greatest_last (k : nat) (p : list Repo) :
  length p = S k ->
  exists p' g,
    bubble (swap_wanted sortBy desc) k p = p' ++ [g]
    /\ Permutation p (p' ++ [g])
    /\ Forall (fun x => in_order sortBy desc x g = true) p'.
Proof.
  revert p. induction k as [|k IH]; intros p Hp.
  - destruct p as [|a [|]]; try discriminate Hp.
    exists [], a. split; [reflexivity|]. split; [reflexivity | constructor].
  - destruct p as [|a [|b p]]; try discriminate Hp. injection Hp as Hp.
    cbn [bubble].
    destruct (swap_wanted sortBy desc a b) eqn:W.
    + destruct (IH (a :: p)) as (p' & g & E & P & F); [simpl; lia|].
      exists (b :: p'), g. rewrite E. split; [reflexivity|]. split.
      * rewrite perm_swap. simpl. now constructor.
      * constructor; [|exact F].
        apply swap_puts_in_order in W.
        assert (Ha : In a (p' ++ [g]))
          by (eapply Permutation_in; [exact P | now left]).
        apply in_app_iff in Ha as [Ha|[<-|[]]]; [|exact W].
        rewrite List.Forall_forall in F.
        exact (in_order_trans _ _ _ W (F a Ha)).
    + destruct (IH (b :: p)) as (p' & g & E & P & F); [simpl; lia|].
      exists (a :: p'), g. rewrite E. split; [reflexivity|]. split.
      * simpl. now constructor.
      * constructor; [|exact F].
        apply kept_is_in_order in W.
        assert (Hb : In b (p' ++ [g]))
          by (eapply Permutation_in; [exact P | now left]).
        apply in_app_iff in Hb as [Hb|[<-|[]]]; [|exact W].
        rewrite List.Forall_forall in F.
        exact (in_order_trans _ _ _ W (F b Hb)).
Qed.

(** The outer loop from pass [i] on: the last [i] places hold an ordered
    run that dominates the rest, and the remaining passes order the rest. *)
Lemma Sort_passes_order (c i : nat) (p t : list Repo) :
  length p = S c -> length t = i ->
  StronglySorted (fun a b => in_order sortBy desc a b = true) t ->
  (forall x y, In x p -> In y t -> in_order sortBy desc x y = true) ->
  StronglySorted (fun a b => in_order sortBy desc a b = true)
    (fold_left (Sort_pass sortBy desc (i + S c)) (seq i c) (p ++ t)).
Proof.
  revert i p t. induction c as [|c IH]; intros i p t Hp Ht St Hpt.
  - destruct p as [|x [|]]; try discriminate Hp. simpl.
    constructor; [exact St|]. apply List.Forall_forall. intros y Hy.
    apply Hpt; [now left | exact Hy].
  - cbn [seq fold_left]. rewrite Sort_pass_bubble.
    replace (i + S (S c) - i - 1)%nat with (S c) by lia.
    rewrite bubble_app by exact Hp.
    destruct (bubble_greatest_last (S c) p Hp) as (p' & g & E & P & F).
    rewrite E, <- app_assoc. cbn [app].
    replace (i + S (S c))%nat with (S i + S c)%nat by lia.
    assert (Hlen : length p' = S c).
    { apply Permutation_length in P. rewrite length_app in P.
      simpl in P. lia. }
    assert (Hg : In g p)
      by (eapply Permutation_in; [symmetry; exact P|];
          apply in_app_iff; right; now left).
    apply IH; [exact Hlen | simpl; lia | |].
    + constructor; [exact St|]. apply List.Forall_forall. intros y Hy.
      now apply Hpt.
    + intros x y Hx [<-|Hy].
      * rewrite List.Forall_forall in F. now apply F.
      * apply Hpt; [|exact Hy].
        eapply Permutation_in; [symmetry; exact P|].
        apply in_app_iff. now left.
Qed.

Lemma Sort_in_order (l : list Repo) :
  StronglySorted (fun a b => in_order sortBy desc a b = true)
    (Sort l sortBy desc).
Proof.
  unfold Sort. destruct l as [|x l]; [constructor|].
  cbn [length]. replace (S (length l) - 1)%nat with (length l) by lia.
  change (S (length l)) with (0 + S (length l))%nat.
  rewrite <- (app_nil_r (x :: l)).
  apply Sort_passes_order; [reflexivity | reflexivity | constructor |].
  intros ? ? _ [].
Qed.

(** X7. [Sort] returns an ordered slice: every record may stand before every
    record that follows it. *)
Theorem Sort_ordered (l : list Repo) :
  StronglySorted (fun a b => in_order sortBy desc a b = true)
    (Sort l sortBy desc).
Proof.
  unfold Sort. destruct l as [|x l]; [constructor|].
  cbn [length]. replace (S (length l) - 1)%nat with (length l) by lia.
  change (S (length l)) with (0 + S (length l))%nat.
  rewrite <- (app_nil_r (x :: l)).
  apply Sort_passes_order; [reflexivity | reflexivity | constructor |].
  intros ? ? _ [].
Qed.
End SortOrder.

(** ** Record helpers *)

(** X8. [StatusString] is the placeholder "-" exactly for a record that is
    neither archived, nor a fork, nor a template. *)
Theorem StatusString_dash (r : Repo) :
  StatusString r = "-"
  <-> IsArchived r = false /\ IsFork r = false /\ IsTemplate r = false.
Proof.
  unfold StatusString.
  destruct (IsArchived r), (IsFork r), (IsTemplate r); cbn;
    split; try discriminate; try (intros (? & ? & ?); discriminate);
    intros; repeat split.
Qed.

(** ** Fetching *)
Section FetchMore.
Context {rt : Runtime}.

Lemma ListRepos_page_Some (nodes : list Node) (l : list Repo) :
  fold_left (fun allRepos r => Some (elems allRepos ++ [repo_of_node r]))
            nodes (Some l)
  <> None.
Proof.
  revert l. induction nodes as [|n nodes IH]; intros l; [discriminate|].
  apply IH.
Qed.

Lemma ListRepos_pages_nil (pages : list (list Node))
    (acc : option (list Repo)) :
  fold_left
    (fun allRepos nodes =>
       fold_left (fun allRepos r => Some (elems allRepos ++ [repo_of_node r]))
                 nodes allRepos)
    pages acc = None
  <-> acc = None /\ concat pages = [].
Proof.
  revert acc. induction pages as [|nodes pages IH]; intros acc.
  - simpl. split; [intros ->; now split | now intros [-> _]].
  - cbn [fold_left concat]. rewrite IH. split.
    + intros [H1 H2]. destruct nodes as [|n nodes].
      * simpl in H1. now split.
      * exfalso. simpl in H1. now apply ListRepos_page_Some in H1.
    + intros [-> H2]. apply app_eq_nil in H2 as [-> H2]. now split.
Qed.

(** X9. A fetch that succeeded returns the records built from every node of
    every page, in page order, without an error, and the nil slice exactly
    when no node was fetched; a fetch that failed returns the nil slice with
    the error. *)
Theorem ListRepos_collects_pages :
  (forall pages,
      exists rs,
        ListRepos (FetchPages pages) = (rs, None)
        /\ elems rs = map repo_of_node (concat pages)
        /\ (rs = None <-> concat pages = []))
  /\ (forall e, ListRepos (FetchFailed e) = (None, Some e)).
Proof.
  split; [|reflexivity]. intros pages.
  exists (fst (ListRepos (FetchPages pages))).
  split; [reflexivity|]. split; [apply ListRepos_elems|].
  cbn [ListRepos fst]. rewrite ListRepos_pages_nil. tauto.
Qed.

(** X11. The startup load reports an error only when authentication, the
    account lookup, or the fetch after a cache miss failed; whatever the
    cache answers, its own error is never reported.  A cache hit is
    returned without regard to the provider's answer. *)
Theorem loadReposWithCache_errors
    (auth : option string) (user : string + string)
    (repos : option (list Repo)) (fresh : bool) (cerr : option string)
    (f : Fetched) :
  (forall e,
      loadReposWithCache auth user (repos, fresh, cerr) f = errorMsg e ->
      (exists a, auth = Some a /\ e = "not authenticated with gh CLI: " +:+ a)
      \/ (auth = None /\ user = inl e)
      \/ (auth = None /\ (exists u, user = inr u) /\ f = FetchFailed e
          /\ (repos = None \/ cerr <> None)))
  /\ (forall u rs,
        auth = None -> user = inr u -> repos = Some rs -> cerr = None ->
        loadReposWithCache auth user (repos, fresh, cerr) f
        = cacheLoadedMsg (Some rs) u fresh)
  /\ (forall u,
        auth = None -> user = inr u -> repos = None \/ cerr <> None ->
        loadReposWithCache auth user (repos, fresh, cerr) f
        = forceRefreshRepos (inr u) f).
Proof.
  split; [|split].
  - intros e H. unfold loadReposWithCache in H.
    destruct auth as [a|].
    { left. exists a. split; [reflexivity|]. now injection H as <-. }
    right. destruct user as [ue|u].
    { left. split; [reflexivity|]. now injection H as ->. }
    right. split; [reflexivity|]. split; [now exists u|].
    destruct f as [fe|pages].
    + assert (Hmiss : repos = None \/ cerr <> None).
      { destruct cerr; [right; discriminate|].
        destruct repos; [discriminate H | now left]. }
      split; [|exact Hmiss].
      destruct cerr, repos; try discriminate H; cbn in H; now injection H as ->.
    + exfalso. destruct cerr, repos; try discriminate H;
        cbn [ListRepos] in H; discriminate H.
  - intros u rs -> -> -> ->. reflexivity.
  - intros u -> -> [-> | Hc]; unfold loadReposWithCache, forceRefreshRepos.
    + destruct cerr; reflexivity.
    + destruct cerr; [|contradiction]. destruct repos; reflexivity.
Qed.
End FetchMore.

Lemma loadReposWithCache_errors_witness :
  let rt := Examples.ascii_runtime in
  loadReposWithCache None (inr "octo") (None, false, Some "unreadable")
                     (FetchFailed "gh api failed: boom")
  = errorMsg "gh api failed: boom"
  /\ loadReposWithCache None (inr "octo") (None, false, Some "unreadable")
                        (FetchFailed "gh api failed: boom")
     = forceRefreshRepos (inr "octo") (FetchFailed "gh api failed: boom").
Proof.
  intros rt. split; [reflexivity|].
  apply (loadReposWithCache_errors None (inr "octo") None false
           (Some "unreadable") (FetchFailed "gh api failed: boom"));
    [reflexivity | reflexivity | right; discriminate].
Defined.

(** ** Helper methods of the model *)

Lemma count_loop (rs : list Repo) (acc : Z) :
  fold_left (fun count r => if Selected r then count + 1 else count) rs acc
  = acc + len (List.filter Selected rs).
Proof.
  revert acc. induction rs as [|r rs IH]; intros acc; simpl.
  - unfold len. simpl. lia.
  - rewrite IH. destruct (Selected r); unfold len; simpl length; lia.
Qed.

(** [updateSelectedCount] stores the number of selected records, a number
    between 0 and the size of the record set, and touches nothing else of
    the records. *)
Lemma updateSelectedCount_count (m : Model) :
  selectedCount (updateSelectedCount m) = len (List.filter Selected (repos m))
  /\ 0 <= selectedCount (updateSelectedCount m) <= len (repos m)
  /\ repos (updateSelectedCount m) = repos m
  /\ filteredRepos (updateSelectedCount m) = filteredRepos m.
Proof.
  unfold updateSelectedCount. cbn [selectedCount set_selectedCount].
  rewrite count_loop. split; [lia|]. split; [|split; reflexivity].
  unfold len. pose proof (filter_length_le Selected (repos m)). lia.
Qed.

Lemma index_of_name_spec (name : string) (rs : list Repo) (i : Z) :
  0 <= i ->
  let k := index_of_name name rs i in
  (k = -1 /\ forall r, In r rs -> FullName r <> name)
  \/ (i <= k < i + len rs
      /\ (exists r, rs !! Z.to_nat (k - i) = Some r /\ FullName r = name)
      /\ forall j r, (j < Z.to_nat (k - i))%nat -> rs !! j = Some r ->
                     FullName r <> name).
Proof.
  revert i. induction rs as [|r rs IH]; intros i Hi; cbn [index_of_name].
  - left. split; [reflexivity | intros ? []].
  - destruct (String.eqb_spec (FullName r) name) as [E|NE].
    + right. replace (i - i) with 0 by lia. split; [unfold len; simpl; lia|].
      split; [exists r; now split | intros j r' Hj; simpl in Hj; lia].
    + destruct (IH (i + 1)) as [[Hk Habs] | (Hr & (r' & Hl & En) & Hfirst)];
        [lia | |].
      * left. split; [exact Hk|]. intros x [<-|Hx]; [exact NE | now apply Habs].
      * right. set (k := index_of_name name rs (i + 1)) in *.
        assert (Hlen : len (r :: rs) = 1 + len rs) by (unfold len; simpl; lia).
        split; [lia|].
        replace (Z.to_nat (k - i)) with (S (Z.to_nat (k - (i + 1)))) by lia.
        split; [exists r'; now split|].
        intros [|j] x Hj Hx; simpl in Hx.
        -- now injection Hx as <-.
        -- apply (Hfirst j x); [lia | exact Hx].
Qed.

(** [getActualIndex] maps a position of the filtered view to the first
    position of the record set that carries the same identifier; it returns
    -1 exactly when the position is outside the view or no record carries
    the identifier. *)
Lemma getActualIndex_cases (m : Model) (filteredIdx : Z) :
  let idx := getActualIndex m filteredIdx in
  (idx = -1
   /\ (filteredIdx < 0 \/ len (filteredRepos m) <= filteredIdx
       \/ exists f, filteredRepos m !! Z.to_nat filteredIdx = Some f
                    /\ forall r, In r (repos m) -> FullName r <> FullName f))
  \/ (0 <= idx < len (repos m)
      /\ 0 <= filteredIdx < len (filteredRepos m)
      /\ exists f r,
           filteredRepos m !! Z.to_nat filteredIdx = Some f
           /\ repos m !! Z.to_nat idx = Some r
           /\ FullName r = FullName f
           /\ forall j r', (j < Z.to_nat idx)%nat -> repos m !! j = Some r' ->
                           FullName r' <> FullName f).
Proof.
  unfold getActualIndex.
  destruct (Z.ltb_spec filteredIdx 0) as [Hneg|Hpos]; cbn [orb].
  { left. split; [reflexivity | now left]. }
  destruct (Z.leb_spec (len (filteredRepos m)) filteredIdx) as [Hout|Hin].
  { left. split; [reflexivity | right; now left]. }
  destruct (filteredRepos m !! Z.to_nat filteredIdx) as [f|] eqn:Ef.
  - destruct (index_of_name_spec (FullName f) (repos m) 0 ltac:(lia))
      as [[Hk Habs] | (Hr & (r & Hl & En) & Hfirst)].
    + left. split; [exact Hk|]. right; right. exists f. now split.
    + right. rewrite Z.sub_0_r in *. split; [lia|]. split; [lia|].
      exists f, r. repeat split; assumption.
  - exfalso. apply lookup_ge_None in Ef. unfold len in Hin. lia.
Qed.

(** X15. Pressing [s] walks through the six sort fields: six presses come back
    to the field one started from and fewer never do. *)
Theorem cycleSortField_period (m : Model) :
  SortBy (filterOpts (Nat.iter 6 cycleSortField m)) = SortBy (filterOpts m)
  /\ forall k, (0 < k < 6)%nat ->
       SortBy (filterOpts (Nat.iter k cycleSortField m))
       <> SortBy (filterOpts m).
Proof.
  split.
  - cbn [Nat.iter]. unfold cycleSortField. cbn.
    destruct (SortBy (filterOpts m)); reflexivity.
  - intros k Hk.
    assert (Hcases : k = 1%nat \/ k = 2%nat \/ k = 3%nat \/ k = 4%nat
                     \/ k = 5%nat) by lia.
    destruct Hcases as [->|[->|[->|[->| ->]]]];
      cbn [Nat.iter]; unfold cycleSortField; cbn;
      destruct (SortBy (filterOpts m)); discriminate.
Qed.

(** X16. [cycleInactiveDays] always lands in the option set: each option is
    followed by the next, the last by the first, and any other value by 0. *)
Theorem cycleInactiveDays_options (current : Z) :
  In (cycleInactiveDays current) [0; 30; 90; 180; 365; 730]
  /\ cycleInactiveDays 0 = 30 /\ cycleInactiveDays 30 = 90
  /\ cycleInactiveDays 90 = 180 /\ cycleInactiveDays 180 = 365
  /\ cycleInactiveDays 365 = 730 /\ cycleInactiveDays 730 = 0
  /\ (~ In current [0; 30; 90; 180; 365; 730] -> cycleInactiveDays current = 0).
Proof.
  split; [|repeat (split; [reflexivity|])].
  - unfold cycleInactiveDays. cbn [cycle_loop].
    repeat match goal with
           | |- context [if ?c =? current then _ else _] =>
               destruct (c =? current)
           end; cbn; auto 10.
  - intros Hn. unfold cycleInactiveDays. cbn [cycle_loop].
    repeat match goal with
           | |- context [if ?c =? current then _ else _] =>
               destruct (Z.eqb_spec c current);
               [exfalso; apply Hn; subst current; cbn; auto 10|]
           end. reflexivity.
Qed.

Lemma int64_small (z : Z) : - 2 ^ 63 <= z < 2 ^ 63 -> int64 z = z.
Proof.
  intros H. unfold int64. rewrite Z.mod_small; lia.
Qed.

(** X17. On a terminal with at least one list row, [adjustOffset] leaves the
    cursor inside the window of visible rows. *)
Theorem adjustOffset_shows_cursor (m : Model) :
  10 < height m < 2 ^ 62 ->
  - 2 ^ 62 <= cursor m < 2 ^ 62 ->
  - 2 ^ 62 <= offset m < 2 ^ 62 ->
  let m' := adjustOffset m in
  cursor m' = cursor m
  /\ offset m' <= cursor m' < offset m' + visibleRows m'.
Proof.
  intros Hh Hc Ho. cbv zeta. rewrite adjustOffset_offset_only.
  cbn [cursor set_offset offset]. split; [reflexivity|].
  unfold visibleRows. cbn [height set_offset].
  unfold adjustOffset, visibleRows.
  rewrite (int64_small (height m - 10)) by lia.
  destruct (Z.ltb_spec (cursor m) (offset m)) as [Hlt|Hge];
    cbn [cursor offset set_offset].
  - rewrite (int64_small (cursor m + (height m - 10))) by lia.
    destruct (Z.leb_spec (cursor m + (height m - 10)) (cursor m));
      cbn [offset set_offset]; lia.
  - rewrite (int64_small (offset m + (height m - 10))) by lia.
    destruct (Z.leb_spec (offset m + (height m - 10)) (cursor m));
      cbn [offset set_offset]; [|lia].
    rewrite (int64_small (cursor m - (height m - 10))) by lia.
    rewrite int64_small by lia. lia.
Qed.

Lemma adjustOffset_shows_cursor_witness :
  let m := set_offset 0 (set_cursor 40 NewModel) in
  let m' := adjustOffset m in
  cursor m' = 40 /\ offset m' <= cursor m' < offset m' + visibleRows m'.
Proof.
  intros m.
  apply (adjustOffset_shows_cursor m); vm_compute; split; congruence.
Defined.

Lemma String_length_append (a b : string) :
  String.length (a +:+ b) = (String.length a + String.length b)%nat.
Proof. induction a as [|c a IH]; simpl; [reflexivity | now rewrite IH]. Qed.

Lemma String_length_prefix (n : nat) (s : string) :
  String.length (string_prefix n s) = Nat.min n (String.length s).
Proof.
  unfold string_prefix. revert n. induction s as [|c s IH]; intros [|n];
    simpl; try reflexivity. now rewrite IH.
Qed.

(** X18. [truncate] never returns more than [max] bytes: a string that fits is
    returned as it is, a longer one is cut to exactly [max] bytes, the last
    three being dots when [max] exceeds 3.  A negative [max] panics. *)
Theorem truncate_length (s : string) (max : Z) :
  (0 <= max ->
   exists t,
     truncate s max = Some t
     /\ len_string t = Z.min (len_string s) max
     /\ (len_string s <= max -> t = s)
     /\ (3 < max < len_string s ->
         t = string_prefix (Z.to_nat (max - 3)) s +:+ "..."))
  /\ (max < 0 -> truncate s max = None).
Proof.
  unfold truncate, len_string. split.
  - intros Hmax. destruct (Z.leb_spec (Z.of_nat (String.length s)) max).
    { exists s. repeat split; [lia | lia]. }
    destruct (Z.leb_spec max 3).
    + replace (max <? 0) with false by (symmetry; apply Z.ltb_ge; lia).
      eexists. split; [reflexivity|]. rewrite String_length_prefix.
      repeat split; lia.
    + eexists. split; [reflexivity|].
      rewrite String_length_append, String_length_prefix. simpl.
      repeat split; first [lia | intros; reflexivity].
  - intros Hneg.
    replace (Z.of_nat (String.length s) <=? max) with false
      by (symmetry; apply Z.leb_gt; lia).
    replace (max <=? 3) with true by (symmetry; apply Z.leb_le; lia).
    replace (max <? 0) with true by (symmetry; apply Z.ltb_lt; lia).
    reflexivity.
Qed.

Lemma truncate_length_witness :
  exists t,
    truncate "gh-repo-review" 9 = Some t
    /\ len_string t = 9 /\ t = "gh-rep...".
Proof.
  destruct (proj1 (truncate_length "gh-repo-review" 9) ltac:(lia))
    as (t & Ht & Hl & _ & Hcut).
  exists t. split; [exact Ht|]. split; [exact Hl|].
  apply Hcut. vm_compute. split; reflexivity.
Defined.

(** ** Folding completions and refreshes *)
Section FoldMore.
Context {rt : Runtime}.

Lemma Update_deleteComplete (now : Time) (m : Model) (name : string) :
  exists m',
    Update now m (deleteCompleteMsg name) = Some (m', [])
    /\ repos m' = remove_named name (repos m)
    /\ filteredRepos m' = filtered_view now (repos m') (filterOpts m)
    /\ cursor_valid m'.
Proof.
  set (m0 := set_messageIsError false (set_message ("Deleted: " +:+ name) m)).
  exists (applyFilters now (set_repos (remove_named name (repos m0)) m0)).
  split; [reflexivity|]. split; [|split].
  - rewrite applyFilters_repos. reflexivity.
  - rewrite applyFilters_repos, applyFilters_filteredRepos. reflexivity.
  - apply applyFilters_cursor_valid.
Qed.

Lemma remove_named_absent (name : string) (rs : list Repo) :
  (forall r, In r rs -> FullName r <> name) -> remove_named name rs = rs.
Proof.
  induction rs as [|r rs IH]; intros H; [reflexivity|]. simpl.
  destruct (String.eqb_spec (FullName r) name) as [E|NE].
  - exfalso. apply (H r); [now left | exact E].
  - f_equal. apply IH. intros x Hx. apply H. now right.
Qed.

Lemma remove_named_first (name : string) (l1 l2 : list Repo) (r : Repo) :
  (forall x, In x l1 -> FullName x <> name) -> FullName r = name ->
  remove_named name (l1 ++ r :: l2) = l1 ++ l2.
Proof.
  intros H E. induction l1 as [|x l1 IH]; simpl.
  - apply String.eqb_eq in E. now rewrite E.
  - destruct (String.eqb_spec (FullName x) name) as [Ex|NE].
    + exfalso. apply (H x); [now left | exact Ex].
    + f_equal. apply IH. intros y Hy. apply H. now right.
Qed.

Lemma remove_named_unique (name : string) (rs : list Repo) :
  List.NoDup (map FullName rs) ->
  forall r, In r (remove_named name rs) -> FullName r <> name.
Proof.
  induction rs as [|x rs IH]; intros ND r Hr; [destruct Hr|].
  simpl in ND. apply NoDup_cons_iff in ND as [Hx ND]. simpl in Hr.
  destruct (String.eqb_spec (FullName x) name) as [E|NE].
  - intros Er. apply Hx. rewrite E, <- Er. now apply in_map.
  - destruct Hr as [<-|Hr]; [exact NE | now apply IH].
Qed.

(** X19. Folding delete-completed(id) removes the first record carrying the
    identifier and nothing else, recomputes the view and leaves a valid
    cursor; without such a record the set is unchanged.  When identifiers
    are unique, no record with the identifier is left in the record set or
    in the view. *)
Theorem deleteComplete_removes_record (now : Time) (m : Model) (name : string) :
  exists m',
    Update now m (deleteCompleteMsg name) = Some (m', [])
    /\ cursor_valid m'
    /\ filteredRepos m' = filtered_view now (repos m') (filterOpts m)
    /\ ((exists r, In r (repos m) /\ FullName r = name) ->
        exists l1 r l2,
          repos m = l1 ++ r :: l2
          /\ (forall x, In x l1 -> FullName x <> name)
          /\ FullName r = name
          /\ repos m' = l1 ++ l2)
    /\ ((forall r, In r (repos m) -> FullName r <> name) ->
        repos m' = repos m)
    /\ (List.NoDup (map FullName (repos m)) ->
        (forall r, In r (repos m') -> FullName r <> name)
        /\ (forall r, In r (filteredRepos m') -> FullName r <> name)).
Proof.
  destruct (Update_deleteComplete now m name) as (m' & HU & Hr & Hf & Hc).
  exists m'. split; [exact HU|]. split; [exact Hc|]. split; [exact Hf|].
  split; [|split].
  - intros Hex.
    destruct (first_named name _ Hex) as (l1 & r & l2 & E & H1 & Er).
    exists l1, r, l2. repeat split; try assumption.
    rewrite Hr, E. now apply remove_named_first.
  - intros Habs. rewrite Hr. now apply remove_named_absent.
  - intros ND.
    assert (H : forall r, In r (repos m') -> FullName r <> name).
    { rewrite Hr. now apply remove_named_unique. }
    split; [exact H|]. intros r Hin. rewrite Hf in Hin.
    unfold filtered_view in Hin. apply Sort_In, Filter_In in Hin as [Hin _].
    now apply H.
Qed.

Lemma mark_archived_comm (a b : string) (rs : list Repo) :
  mark_archived a (mark_archived b rs) = mark_archived b (mark_archived a rs).
Proof.
  induction rs as [|r rs IH]; [reflexivity|]. simpl.
  destruct (String.eqb (FullName r) b) eqn:Eb,
           (String.eqb (FullName r) a) eqn:Ea; simpl;
    rewrite ?Eb, ?Ea; try reflexivity.
  now rewrite IH.
Qed.

Lemma mark_archived_idem (a : string) (rs : list Repo) :
  mark_archived a (mark_archived a rs) = mark_archived a rs.
Proof.
  induction rs as [|r rs IH]; [reflexivity|]. simpl.
  destruct (String.eqb (FullName r) a) eqn:Ea; simpl; rewrite Ea.
  - reflexivity.
  - now rewrite IH.
Qed.

Lemma remove_named_comm (a b : string) (rs : list Repo) :
  remove_named a (remove_named b rs) = remove_named b (remove_named a rs).
Proof.
  induction rs as [|r rs IH]; [reflexivity|]. simpl.
  destruct (String.eqb (FullName r) b) eqn:Eb,
           (String.eqb (FullName r) a) eqn:Ea; simpl;
    rewrite ?Eb, ?Ea; try reflexivity.
  - apply String.eqb_eq in Ea, Eb. now subst.
  - now rewrite IH.
Qed.

(** The record set and the view after two folds. *)
Lemma run_two (m : Model) (t1 t2 : Time) (g1 g2 : Msg) (f1 f2 : list Repo -> list Repo) :
  (forall now m0, exists m',
       Update now m0 g1 = Some (m', [])
       /\ repos m' = f1 (repos m0)
       /\ filteredRepos m' = filtered_view now (repos m') (filterOpts m0)
       /\ filterOpts m' = filterOpts m0) ->
  (forall now m0, exists m',
       Update now m0 g2 = Some (m', [])
       /\ repos m' = f2 (repos m0)
       /\ filteredRepos m' = filtered_view now (repos m') (filterOpts m0)
       /\ filterOpts m' = filterOpts m0) ->
  exists m2,
    run m [(t1, g1); (t2, g2)] = Some m2
    /\ repos m2 = f2 (f1 (repos m))
    /\ filteredRepos m2 = filtered_view t2 (repos m2) (filterOpts m).
Proof.
  intros H1 H2.
  destruct (H1 t1 m) as (m1 & U1 & R1 & _ & O1).
  destruct (H2 t2 m1) as (m2 & U2 & R2 & F2 & _).
  exists m2. cbn [run]. rewrite U1, U2.
  split; [reflexivity|]. rewrite R2, R1 in *. rewrite O1 in F2.
  split; [reflexivity | exact F2].
Qed.

Lemma archive_fold (name : string) (now : Time) (m : Model) :
  exists m',
    Update now m (archiveCompleteMsg name) = Some (m', [])
    /\ repos m' = mark_archived name (repos m)
    /\ filteredRepos m' = filtered_view now (repos m') (filterOpts m)
    /\ filterOpts m' = filterOpts m.
Proof.
  set (m0 := set_messageIsError false (set_message ("Archived: " +:+ name) m)).
  exists (applyFilters now (set_repos (mark_archived name (repos m0)) m0)).
  split; [reflexivity|].
  rewrite applyFilters_repos, applyFilters_filteredRepos, applyFilters_filterOpts.
  repeat split; reflexivity.
Qed.

Lemma delete_fold (name : string) (now : Time) (m : Model) :
  exists m',
    Update now m (deleteCompleteMsg name) = Some (m', [])
    /\ repos m' = remove_named name (repos m)
    /\ filteredRepos m' = filtered_view now (repos m') (filterOpts m)
    /\ filterOpts m' = filterOpts m.
Proof.
  set (m0 := set_messageIsError false (set_message ("Deleted: " +:+ name) m)).
  exists (applyFilters now (set_repos (remove_named name (repos m0)) m0)).
  split; [reflexivity|].
  rewrite applyFilters_repos, applyFilters_filteredRepos, applyFilters_filterOpts.
  repeat split; reflexivity.
Qed.

(** X20. The completions of a bulk action can arrive in either order: folding
    archive-completed (or delete-completed) for two identifiers gives the
    same record set and the same view whichever comes first, and folding
    an archive completion a second time changes neither. *)
Theorem completions_commute (m : Model) (t1 t2 : Time) (a b : string) :
  (exists mab mba,
      run m [(t1, archiveCompleteMsg a); (t2, archiveCompleteMsg b)] = Some mab
      /\ run m [(t1, archiveCompleteMsg b); (t2, archiveCompleteMsg a)]
         = Some mba
      /\ repos mab = repos mba /\ filteredRepos mab = filteredRepos mba)
  /\ (exists mab mba,
        run m [(t1, deleteCompleteMsg a); (t2, deleteCompleteMsg b)] = Some mab
        /\ run m [(t1, deleteCompleteMsg b); (t2, deleteCompleteMsg a)]
           = Some mba
        /\ repos mab = repos mba /\ filteredRepos mab = filteredRepos mba)
  /\ (exists m1 m2,
        run m [(t1, archiveCompleteMsg a)] = Some m1
        /\ run m [(t1, archiveCompleteMsg a); (t2, archiveCompleteMsg a)]
           = Some m2
        /\ repos m2 = repos m1).
Proof.
  split; [|split].
  - destruct (run_two m t1 t2 _ _ _ _ (archive_fold a) (archive_fold b))
      as (mab & Rab & Hab & Fab).
    destruct (run_two m t1 t2 _ _ _ _ (archive_fold b) (archive_fold a))
      as (mba & Rba & Hba & Fba).
    exists mab, mba. split; [exact Rab|]. split; [exact Rba|].
    assert (E : repos mab = repos mba)
      by (rewrite Hab, Hba; apply mark_archived_comm).
    split; [exact E|]. now rewrite Fab, Fba, E.
  - destruct (run_two m t1 t2 _ _ _ _ (delete_fold a) (delete_fold b))
      as (mab & Rab & Hab & Fab).
    destruct (run_two m t1 t2 _ _ _ _ (delete_fold b) (delete_fold a))
      as (mba & Rba & Hba & Fba).
    exists mab, mba. split; [exact Rab|]. split; [exact Rba|].
    assert (E : repos mab = repos mba)
      by (rewrite Hab, Hba; apply remove_named_comm).
    split; [exact E|]. now rewrite Fab, Fba, E.
  - destruct (archive_fold a t1 m) as (m1 & U1 & R1 & _).
    destruct (run_two m t1 t2 _ _ _ _ (archive_fold a) (archive_fold a))
      as (m2 & R2 & H2 & _).
    exists m1, m2. split; [cbn [run]; now rewrite U1|].
    split; [exact R2|]. rewrite H2, R1. apply mark_archived_idem.
Qed.

Lemma selected_in_merge (old new : list Repo) (r : Repo) :
  In r new ->
  selected_in (merge_by_identifier old new) (FullName r)
  = selected_in old (FullName r).
Proof.
  intros Hr. unfold merge_by_identifier.
  destruct (selected_in old (FullName r)) eqn:E.
  - apply selected_in_spec.
    exists (set_Selected (selected_in old (FullName r)) r).
    split; [apply in_map_iff; exists r; now split|].
    split; [reflexivity|]. exact E.
  - destruct (selected_in (map _ new) (FullName r)) eqn:E'; [|reflexivity].
    apply selected_in_spec in E' as (o & Ho & En & Hs).
    apply in_map_iff in Ho as (x & <- & Hx).
    cbn [FullName Selected set_Selected] in En, Hs. congruence.
Qed.

(** X21. Folding the same background-refresh result a second time changes
    nothing in the record set: the merge by identifier is idempotent. *)
Theorem backgroundRefresh_idempotent (m : Model) (t1 t2 : Time)
    (new : list Repo) :
  Forall (fun r => Selected r = false) new ->
  exists m1 m2,
    run m [(t1, backgroundRefreshMsg (Some new))] = Some m1
    /\ run m [(t1, backgroundRefreshMsg (Some new));
              (t2, backgroundRefreshMsg (Some new))] = Some m2
    /\ repos m2 = repos m1.
Proof.
  intros Hnew.
  destruct (Update_backgroundRefresh t1 m new) as (m1 & U1 & R1 & _).
  destruct (Update_backgroundRefresh t2 m1 new) as (m2 & U2 & R2 & _).
  exists m1, m2. cbn [run]. rewrite U1, U2.
  split; [reflexivity|]. split; [reflexivity|].
  rewrite restore_selection_merge in R1, R2 by exact Hnew.
  rewrite R2, R1. unfold merge_by_identifier at 1 3.
  apply map_ext_in. intros r Hr. now rewrite selected_in_merge.
Qed.
End FoldMore.

Lemma backgroundRefresh_idempotent_witness :
  let rt := Examples.ascii_runtime in
  let m := set_repos [Examples.sample "x" 1 true] NewModel in
  let new := [Examples.sample "y" 0 false; Examples.sample "x" 5 false] in
  Forall (fun r => Selected r = false) new
  /\ exists m1 m2,
       run m [(0, backgroundRefreshMsg (Some new))] = Some m1
       /\ run m [(0, backgroundRefreshMsg (Some new));
                 (7, backgroundRefreshMsg (Some new))] = Some m2
       /\ repos m2 = repos m1.
Proof.
  intros rt m new.
  assert (Hnew : Forall (fun r => Selected r = false) new)
    by (repeat constructor).
  split; [exact Hnew|].
  exact (backgroundRefresh_idempotent m 0 7 new Hnew).
Defined.

Lemma deleteComplete_removes_record_witness :
  let rt := Examples.ascii_runtime in
  let m := set_repos [Examples.sample "a" 1 true; Examples.sample "b" 2 false]
                     NewModel in
  List.NoDup (map FullName (repos m))
  /\ exists m',
       Update 0 m (deleteCompleteMsg "octo/b") = Some (m', [])
       /\ forall r, In r (repos m') -> FullName r <> "octo/b".
Proof.
  intros rt m.
  assert (ND : List.NoDup (map FullName (repos m))).
  { repeat constructor; cbn; [intros [H|[]]; discriminate H | intros []]. }
  split; [exact ND|].
  destruct (deleteComplete_removes_record 0 m "octo/b")
    as (m' & HU & _ & _ & _ & _ & Hu).
  exists m'. split; [exact HU | exact (proj1 (Hu ND))].
Defined.

(** ** Key handling *)

(** Case analysis on the tests a handler made on the way to its result. *)
Ltac split_tests H :=
  repeat match type of H with
         | context [if ?c then _ else _] => destruct c eqn:?
         | context [match ?x with Some _ => _ | None => _ end] =>
             destruct x eqn:?
         end.

Ltac open_handlers H :=
  unfold handleKeyPress, handleListKeys, handleFilterKeys, handleDetailKeys,
    handleConfirmArchiveKeys, handleConfirmDeleteKeys, handleHelpKeys in H;
  cbv zeta in H.

Section KeyFacts.
Context {rt : Runtime}.

Lemma key_in_2 (key a b : string) :
  key_in key [a; b] = true -> key = a \/ key = b.
Proof.
  unfold key_in. cbn [existsb]. rewrite orb_false_r.
  intros H. apply orb_true_iff in H as [H|H]; apply String.eqb_eq in H; auto.
Qed.

Lemma In_archive_cmds (m : Model) (c : Cmd) :
  In c (archive_cmds m) -> exists name, c = Cmd_archive (client m) name.
Proof.
  unfold archive_cmds.
  rewrite (dispatch_loop _ (fun r => Cmd_archive (client m) (FullName r))).
  intros H. apply in_map_iff in H as (r & <- & _). now exists (FullName r).
Qed.

Lemma In_delete_cmds (m : Model) (c : Cmd) :
  In c (delete_cmds m) -> exists name, c = Cmd_delete (client m) name.
Proof.
  unfold delete_cmds.
  rewrite (dispatch_loop _ (fun r => Cmd_delete (client m) (FullName r))).
  intros H. apply in_map_iff in H as (r & <- & _). now exists (FullName r).
Qed.

(** The commands a fold of a result message can return. *)
Lemma message_cmds (now : Time) (m : Model) (msg : Msg) :
  (forall key, msg <> KeyMsg key) ->
  exists m1 c1,
    Update now m msg = Some (m1, c1)
    /\ (c1 = [] \/ c1 = [Cmd_spinner] \/ exists u, c1 = [Cmd_refreshRepos u]).
Proof.
  intros Hk.
  destruct msg as [key| | |rs u|rs u fresh|[new|]| |name|name| |];
    cbn [Update]; try (now contradiction (Hk key));
    try (eexists _, _; split; [reflexivity|]; now left).
  - destruct (loading m); eexists _, _; (split; [reflexivity|]); auto.
  - destruct fresh; eexists _, _; (split; [reflexivity|]); eauto.
Qed.

(** X22. The program quits only on [q] or [ctrl+c] pressed on the List screen
    while the search field is not focused; no other key, screen or message
    ever produces the quit command, and quitting leaves the model as it
    is. *)
Theorem quit_only_from_list (now : Time) (m : Model) (msg : Msg)
    (m' : Model) (cmds : list Cmd) :
  Update now m msg = Some (m', cmds) -> In Cmd_Quit cmds ->
  exists key,
    msg = KeyMsg key /\ (key = "ctrl+c" \/ key = "q")
    /\ view m = ViewList /\ Focused (searchInput m) = false /\ m' = m.
Proof.
  intros H Hq.
  assert (Hkey : exists key, msg = KeyMsg key).
  { destruct msg as [key| | | | | | | | | |]; try (now exists key);
      exfalso;
      match type of H with
      | Update _ _ ?g = _ =>
          destruct (message_cmds now m g ltac:(discriminate))
            as (m1 & c1 & HU & Hc)
      end;
      rewrite HU in H; injection H as <- <-;
      destruct Hc as [-> | [-> | [u ->]]]; cbn in Hq; intuition discriminate. }
  destruct Hkey as [key ->]. exists key. split; [reflexivity|].
  cbn [Update] in H. open_handlers H.
  destruct (key_in key ["ctrl+c"; "q"]) eqn:K;
    destruct (view m) eqn:V;
    destruct (Focused (searchInput m)) eqn:F; cbn [andb negb] in H;
    try (injection H as <- <-;
         repeat split; try reflexivity; now apply key_in_2);
    exfalso;
    split_tests H; try discriminate H; injection H as <- <-;
    try (apply In_archive_cmds in Hq as [? Hq]; discriminate Hq);
    try (apply In_delete_cmds in Hq as [? Hq]; discriminate Hq);
    cbn in Hq; intuition discriminate.
Qed.

(** *** What a key leaves alone *)

Lemma map_alter_same {A B} (f : A -> B) (g : A -> A) (i : nat) (l : list A) :
  (forall x, f (g x) = f x) -> map f (alter g i l) = map f l.
Proof.
  intros Hfg. revert i. induction l as [|x l IH]; intros [|i]; simpl;
    try reflexivity.
  - now rewrite Hfg.
  - f_equal. apply IH.
Qed.

Lemma same_records_alter (g : Repo -> bool) (i : nat) (l : list Repo) :
  same_records (alter (fun r => set_Selected (g r) r) i l) l.
Proof. apply map_alter_same. reflexivity. Qed.

Lemma same_records_map (b : bool) (l : list Repo) :
  same_records (map (set_Selected b) l) l.
Proof. unfold same_records. rewrite map_map. reflexivity. Qed.

Lemma same_records_refl (l : list Repo) : same_records l l.
Proof. reflexivity. Qed.

Lemma same_records_length (l1 l2 : list Repo) :
  same_records l1 l2 -> length l1 = length l2.
Proof.
  intros H. apply (f_equal (@length Repo)) in H.
  now rewrite !length_map in H.
Qed.

Lemma selection_only_refl (m : Model) : selection_only m m.
Proof. repeat split. Qed.

Lemma selection_only_trans (m1 m2 m3 : Model) :
  selection_only m1 m2 -> selection_only m2 m3 -> selection_only m1 m3.
Proof.
  unfold selection_only, same_records.
  intros (A1 & A2 & A3 & A4 & A5 & A6) (B1 & B2 & B3 & B4 & B5 & B6).
  repeat split; congruence.
Qed.

Lemma select_under_cursor_only (v : View) (m : Model) :
  selection_only m (select_under_cursor v m).
Proof.
  unfold select_under_cursor.
  destruct (0 <=? getActualIndex m (cursor m)); [|apply selection_only_refl].
  repeat split.
  exact (same_records_alter (fun _ => true) _ (repos m)).
Qed.

Lemma select_visible_step_only (m : Model) (i : nat) :
  selection_only m (select_visible_step m i).
Proof.
  unfold select_visible_step.
  destruct (filteredRepos m !! i) as [f|]; [|apply selection_only_refl].
  destruct (negb (IsArchived f)); [|apply selection_only_refl].
  match goal with
  | |- context [if ?c then _ else _] => destruct c
  end; repeat split;
    try exact (same_records_alter (fun _ => true) _ (repos m));
    exact (same_records_alter (fun _ => true) _ (filteredRepos m)).
Qed.

Lemma select_visible_only (m : Model) (js : list nat) :
  selection_only m (fold_left select_visible_step js m).
Proof.
  revert m. induction js as [|j js IH]; intros m; [apply selection_only_refl|].
  cbn [fold_left]. eapply selection_only_trans;
    [apply select_visible_step_only | apply IH].
Qed.

Lemma repos_adjustOffset (m : Model) : repos (adjustOffset m) = repos m.
Proof. rewrite adjustOffset_offset_only. reflexivity. Qed.

Ltac reduce_repos :=
  repeat first [rewrite applyFilters_repos | rewrite repos_adjustOffset];
  cbn [repos set_repos set_filteredRepos set_client set_username set_view
       set_cursor set_offset set_loading set_err set_message
       set_messageIsError set_filterOpts set_searchInput set_width
       set_height set_selectedCount updateSelectedCount cycleSortField
       toggle_ShowArchived toggle_ShowPrivate toggle_ShowPublic
       toggle_ShowForks toggle_SortDesc].

(** X23. No key adds, removes, reorders or edits a record of the record set:
    whatever the screen and the key, the record set after the update is the
    one before up to the selected flags. *)
Theorem keys_change_only_selection (now : Time) (m : Model) (key : string)
    (m' : Model) (cmds : list Cmd) :
  Update now m (KeyMsg key) = Some (m', cmds) ->
  same_records (repos m') (repos m).
Proof.
  intros H. cbn [Update] in H. open_handlers H.
  destruct (view m) eqn:V;
    split_tests H; try discriminate H; injection H as <- <-;
    reduce_repos;
    first [ apply same_records_refl
          | apply same_records_alter
          | apply same_records_map
          | exact (proj1 (select_under_cursor_only _ _))
          | exact (proj1 (select_visible_only _ _)) ].
Qed.

(** *** The cursor stays valid *)

Lemma cursor_valid_arith (m : Model) :
  cursor_valid m
  <-> 0 <= cursor m <= Z.max 0 (len (filteredRepos m) - 1).
Proof.
  unfold cursor_valid. pose proof (len_nonneg (filteredRepos m)) as Hn.
  split.
  - intros (H0 & He & Hp). destruct (filteredRepos m) as [|r l] eqn:E.
    + rewrite He by reflexivity. unfold len. simpl. lia.
    + specialize (Hp ltac:(discriminate)). lia.
  - intros H. split; [lia|]. split.
    + intros E. rewrite E in H. unfold len in H. simpl in H. lia.
    + intros NE. assert (len (filteredRepos m) <> 0)
        by (intros E; now apply len_nil_iff in E). lia.
Qed.

Lemma cursor_valid_shape (m m' : Model) :
  cursor m' = cursor m ->
  length (filteredRepos m') = length (filteredRepos m) ->
  cursor_valid m -> cursor_valid m'.
Proof.
  intros Hc Hl. rewrite !cursor_valid_arith. unfold len. rewrite Hc, Hl. auto.
Qed.

Lemma cursor_valid_selection_only (m m' : Model) :
  selection_only m m' -> cursor_valid m -> cursor_valid m'.
Proof.
  intros (_ & Hf & Hc & _). apply cursor_valid_shape; [exact Hc|].
  now apply same_records_length.
Qed.

Lemma cursor_valid_adjustOffset (m : Model) :
  cursor_valid m -> cursor_valid (adjustOffset m).
Proof. rewrite (adjustOffset_offset_only m). exact (fun H => H). Qed.

Lemma cursor_valid_lookup (m : Model) :
  cursor_valid m -> 0 < len (filteredRepos m) ->
  exists r, filteredRepos m !! Z.to_nat (cursor m) = Some r.
Proof.
  rewrite cursor_valid_arith. intros Hv Hl.
  apply lookup_lt_is_Some. unfold len in *. lia.
Qed.

Ltac split_goal_tests :=
  repeat (match goal with
          | |- context [if ?c then _ else _] =>
              lazymatch c with
              | context [if _ then _ else _] => fail
              | _ => destruct c eqn:?
              end
          | |- context [match ?x with Some _ => _ | None => _ end] =>
              destruct x eqn:?
          end; cbv beta iota).

Ltac bools_to_props :=
  repeat match goal with
         | H : (_ <? _) = true |- _ => apply Z.ltb_lt in H
         | H : (_ <? _) = false |- _ => apply Z.ltb_ge in H
         | H : (_ <=? _) = true |- _ => apply Z.leb_le in H
         | H : (_ <=? _) = false |- _ => apply Z.leb_gt in H
         | H : (_ && _) = true |- _ => apply andb_true_iff in H as [? ?]
         end.

Lemma key_keeps_cursor_valid (now : Time) (m : Model) (key : string) :
  cursor_valid m ->
  10 <= height m < 2 ^ 63 ->
  len (filteredRepos m) < 2 ^ 63 ->
  exists m' cmds,
    handleKeyPress now m key = Some (m', cmds) /\ cursor_valid m'.
Proof.
  intros Hv Hh Hl.
  pose proof (proj1 (cursor_valid_arith m) Hv) as Ha.
  assert (Hvis : visibleRows m = height m - 10)
    by (unfold visibleRows; apply int64_small; lia).
  unfold handleKeyPress, handleListKeys, handleFilterKeys, handleDetailKeys,
    handleConfirmArchiveKeys, handleConfirmDeleteKeys, handleHelpKeys.
  cbv zeta. rewrite ?Hvis.
  destruct (view m) eqn:V; split_goal_tests;
    try (eexists _, _; split; [reflexivity|];
         first [ exact Hv
               | apply applyFilters_cursor_valid
               | apply cursor_valid_adjustOffset
               | idtac ]).
  all: try (apply (cursor_valid_selection_only m);
            [|exact Hv];
            first [ apply select_under_cursor_only
                  | apply (select_visible_only m) ]).
  all: try (apply cursor_valid_arith;
            cbn [cursor filteredRepos set_cursor set_offset set_repos
                 set_filteredRepos set_selectedCount updateSelectedCount];
            cbn [cursor filteredRepos set_cursor] in *;
            bools_to_props; unfold len in *;
            rewrite ?length_alter, ?length_map;
            try rewrite int64_small in * by lia; lia).
  all: exfalso; bools_to_props; try lia;
    destruct (cursor_valid_lookup m Hv ltac:(assumption)) as [r Hr];
    congruence.
Qed.

(** X24. From a model whose cursor is valid, on a terminal of at least ten
    rows, no message makes the update panic and the cursor is valid again
    afterwards.  (The bounds below [2 ^ 63] hold of every Go [int] and
    slice length.) *)
Theorem Update_keeps_cursor_valid (now : Time) (m : Model) (msg : Msg) :
  cursor_valid m ->
  10 <= height m < 2 ^ 63 ->
  len (filteredRepos m) < 2 ^ 63 ->
  exists m' cmds, Update now m msg = Some (m', cmds) /\ cursor_valid m'.
Proof.
  intros Hv Hh Hl.
  destruct msg as [key| | |rs u|rs u fresh|[new|]| |name|name| |];
    cbn [Update].
  - now apply key_keeps_cursor_valid.
  - eexists _, _. split; [reflexivity | exact Hv].
  - destruct (loading m); eexists _, _; (split; [reflexivity | exact Hv]).
  - eexists _, _. split; [reflexivity|].
    apply cursor_valid_set_message, applyFilters_cursor_valid.
  - destruct fresh; eexists _, _; (split; [reflexivity|]);
      apply cursor_valid_set_message, applyFilters_cursor_valid.
  - eexists _, _. split; [reflexivity|].
    apply cursor_valid_set_message, applyFilters_cursor_valid.
  - eexists _, _. split; [reflexivity | exact Hv].
  - eexists _, _. split; [reflexivity | exact Hv].
  - eexists _, _. split; [reflexivity|]. apply applyFilters_cursor_valid.
  - eexists _, _. split; [reflexivity|]. apply applyFilters_cursor_valid.
  - eexists _, _. split; [reflexivity | exact Hv].
  - eexists _, _. split; [reflexivity | exact Hv].
Qed.

(** *** Entering the confirmation screens *)

Lemma view_adjustOffset (m : Model) : view (adjustOffset m) = view m.
Proof. rewrite adjustOffset_offset_only. reflexivity. Qed.

Lemma applyFilters_view now m : view (applyFilters now m) = view m.
Proof. rewrite applyFilters_unfold, adjustOffset_offset_only. reflexivity. Qed.

Lemma select_visible_step_view (m : Model) (i : nat) :
  view (select_visible_step m i) = view m.
Proof.
  unfold select_visible_step.
  destruct (filteredRepos m !! i) as [f|]; [|reflexivity].
  destruct (negb (IsArchived f)); [|reflexivity].
  match goal with
  | |- context [if ?c then _ else _] => destruct c
  end; reflexivity.
Qed.

Lemma select_visible_view (m : Model) (js : list nat) :
  view (fold_left select_visible_step js m) = view m.
Proof.
  revert m. induction js as [|j js IH]; intros m; [reflexivity|].
  cbn [fold_left]. rewrite IH. apply select_visible_step_view.
Qed.

Lemma In_alter_selected (i : nat) (l : list Repo) :
  (i < length l)%nat ->
  exists r, In r (alter (set_Selected true) i l) /\ Selected r = true.
Proof.
  revert i. induction l as [|x l IH]; intros i Hi; [simpl in Hi; lia|].
  destruct i as [|i].
  - exists (set_Selected true x). split; [now left | reflexivity].
  - destruct (IH i) as (r & Hr & Hs); [simpl in Hi; lia|].
    exists r. split; [now right | exact Hs].
Qed.

(** The auto-selection of the record under the cursor either selects a
    record and opens the screen, or changes nothing. *)
Lemma select_under_cursor_cases (v : View) (m : Model) :
  (view (select_under_cursor v m) = v
   /\ exists r, In r (repos (select_under_cursor v m)) /\ Selected r = true)
  \/ select_under_cursor v m = m.
Proof.
  unfold select_under_cursor.
  pose proof (getActualIndex_cases m (cursor m)) as Hspec. cbv zeta in Hspec.
  destruct (Z.leb_spec 0 (getActualIndex m (cursor m))) as [Hi|Hi];
    [left | now right].
  split; [reflexivity|].
  destruct Hspec as [[Hneg _] | (Hr & _)]; [lia|].
  cbn [repos set_view updateSelectedCount set_selectedCount set_repos].
  apply In_alter_selected. unfold len in Hr. lia.
Qed.

Lemma counted_selection (rs : list Repo) :
  0 < len (List.filter Selected rs) ->
  exists r, In r rs /\ Selected r = true.
Proof.
  destruct (List.filter Selected rs) as [|r l] eqn:E.
  - unfold len. simpl. lia.
  - intros _. exists r. apply filter_In. rewrite E. now left.
Qed.

Ltac reduce_view H :=
  repeat progress
    (repeat first [rewrite applyFilters_view in H
                  | rewrite view_adjustOffset in H
                  | rewrite select_visible_view in H];
     cbn [view set_repos set_filteredRepos set_client set_username set_view
          set_cursor set_offset set_loading set_err set_message
          set_messageIsError set_filterOpts set_searchInput set_width
          set_height set_selectedCount updateSelectedCount cycleSortField
          toggle_ShowArchived toggle_ShowPrivate toggle_ShowPublic
          toggle_ShowForks toggle_SortDesc] in H).

(** X25. A key opens Confirm-Archive or Confirm-Delete only with a selected
    record in the record set, provided the stored count of selected
    records is accurate when the key is pressed. *)
Theorem confirm_entered_with_selection (now : Time) (m : Model)
    (key : string) (m' : Model) (cmds : list Cmd) :
  selectedCount m = len (List.filter Selected (repos m)) ->
  view m <> ViewConfirmArchive -> view m <> ViewConfirmDelete ->
  Update now m (KeyMsg key) = Some (m', cmds) ->
  view m' = ViewConfirmArchive \/ view m' = ViewConfirmDelete ->
  exists r, In r (repos m') /\ Selected r = true.
Proof.
  intros Hcount Hna Hnd H Hc. cbn [Update] in H. open_handlers H.
  destruct (view m) eqn:V; try congruence;
    split_tests H; try discriminate H; injection H as <- <-;
    try (reduce_view Hc; rewrite ?V in Hc;
         destruct Hc as [Hc|Hc]; discriminate Hc).
  all: try (match goal with
            | |- context [select_under_cursor ?v ?m0] =>
                destruct (select_under_cursor_cases v m0) as [[_ Hsel]|Hsame];
                [exact Hsel
                | rewrite Hsame in Hc; rewrite V in Hc;
                  destruct Hc as [Hc|Hc]; discriminate Hc]
            end).
  all: cbn [repos set_view]; apply counted_selection; rewrite <- Hcount;
    bools_to_props; assumption.
Qed.

(** *** Selection keys *)

(** X26. On the List screen [D] clears every selected flag of the record set
    and of the filtered view and resets the count, and changes nothing else
    of the records, the cursor or the screen. *)
Theorem deselect_all_clears (now : Time) (m : Model) :
  view m = ViewList -> Focused (searchInput m) = false ->
  exists m',
    Update now m (KeyMsg "D") = Some (m', [])
    /\ Forall (fun r => Selected r = false) (repos m')
    /\ Forall (fun r => Selected r = false) (filteredRepos m')
    /\ selectedCount m' = 0
    /\ same_records (repos m') (repos m)
    /\ same_records (filteredRepos m') (filteredRepos m)
    /\ cursor m' = cursor m /\ view m' = ViewList.
Proof.
  intros V F. eexists. split.
  - cbn [Update]. unfold handleKeyPress. rewrite V, F.
    unfold handleListKeys. rewrite F. reflexivity.
  - cbn [repos filteredRepos selectedCount cursor view set_repos
         set_filteredRepos set_selectedCount].
    repeat split; try apply same_records_map; try exact V;
      apply List.Forall_forall; intros r Hr;
      apply in_map_iff in Hr as (x & <- & _); reflexivity.
Qed.

Lemma alter_as_insert {A} (g : A -> A) (i : nat) (l : list A) (x : A) :
  l !! i = Some x -> alter g i l = <[i := g x]> l.
Proof.
  revert i. induction l as [|y l IH]; intros [|i] H; try discriminate H.
  - injection H as ->. reflexivity.
  - simpl. f_equal. now apply IH.
Qed.

(** X27. On the List screen, space (or [x]) on a cursor position whose record
    is found in the record set flips the selected flag of the first record
    with that identifier, writes the new flag into the view's copy under
    the cursor, and recounts; everything else of both slices stays.  When
    the position is not found, nothing changes. *)
Theorem toggle_selection_syncs (now : Time) (m : Model) (key : string) :
  view m = ViewList -> Focused (searchInput m) = false ->
  key = " " \/ key = "x" ->
  let idx := getActualIndex m (cursor m) in
  (0 <= idx ->
   exists m' r f,
     Update now m (KeyMsg key) = Some (m', [])
     /\ repos m !! Z.to_nat idx = Some r
     /\ filteredRepos m !! Z.to_nat (cursor m) = Some f
     /\ FullName r = FullName f
     /\ repos m'
        = <[Z.to_nat idx := set_Selected (negb (Selected r)) r]> (repos m)
     /\ filteredRepos m'
        = <[Z.to_nat (cursor m) := set_Selected (negb (Selected r)) f]>
            (filteredRepos m)
     /\ selectedCount m' = len (List.filter Selected (repos m')))
  /\ (idx < 0 -> Update now m (KeyMsg key) = Some (m, [])).
Proof.
  intros V F Hkey idx.
  assert (HU : Update now m (KeyMsg key)
               = if 0 <? len (filteredRepos m) then
                   if 0 <=? idx then
                     let m1 := set_repos
                                 (alter (fun r => set_Selected (negb (Selected r)) r)
                                        (Z.to_nat idx) (repos m)) m in
                     let now_selected :=
                       match repos m1 !! Z.to_nat idx with
                       | Some r => Selected r
                       | None => false
                       end in
                     Some (updateSelectedCount
                             (set_filteredRepos
                                (alter (set_Selected now_selected)
                                       (Z.to_nat (cursor m1)) (filteredRepos m1))
                                m1), [])
                   else Some (m, [])
                 else Some (m, [])).
  { cbn [Update]. unfold handleKeyPress. rewrite V, F.
    unfold handleListKeys. rewrite F.
    destruct Hkey as [-> | ->]; reflexivity. }
  pose proof (getActualIndex_cases m (cursor m)) as Hspec. cbv zeta in Hspec.
  fold idx in Hspec. split.
  - intros Hidx.
    destruct Hspec as [[Hneg _] | (Hr & Hc & f & r & Hf & Hrl & En & _)];
      [lia|].
    exists (updateSelectedCount
              (set_filteredRepos
                 (<[Z.to_nat (cursor m) := set_Selected (negb (Selected r)) f]>
                    (filteredRepos m))
                 (set_repos
                    (<[Z.to_nat idx := set_Selected (negb (Selected r)) r]>
                       (repos m)) m))), r, f.
    split.
    + rewrite HU.
      replace (0 <? len (filteredRepos m)) with true
        by (symmetry; apply Z.ltb_lt; lia).
      replace (0 <=? idx) with true by (symmetry; apply Z.leb_le; lia).
      cbv zeta. cbn [repos set_repos cursor filteredRepos].
      rewrite list_lookup_alter_eq, Hrl. cbn [fmap option_fmap option_map].
      cbn [Selected set_Selected].
      rewrite (alter_as_insert _ _ _ _ Hrl), (alter_as_insert _ _ _ _ Hf).
      reflexivity.
    + repeat split; try assumption.
      rewrite (proj1 (updateSelectedCount_count _)). reflexivity.
  - intros Hidx. rewrite HU.
    replace (0 <=? idx) with false by (symmetry; apply Z.leb_gt; lia).
    now destruct (0 <? len (filteredRepos m)).
Qed.
End KeyFacts.

(** A terminal of fewer than ten rows shows why the bound on the height
    matters: page-up then moves the cursor past the view and [o] indexes
    the view out of range. *)
Lemma small_terminal_pgup_panics :
  let rt := Examples.ascii_runtime in
  run NewModel
      [(0, reposLoadedMsg (Some [Examples.sample "a" 1 false]) "octo");
       (0, WindowSizeMsg 80 5); (0, KeyMsg "pgup"); (0, KeyMsg "o")]
  = None.
Proof. vm_compute. reflexivity. Qed.

Lemma quit_only_from_list_witness :
  let rt := Examples.ascii_runtime in
  Update 0 NewModel (KeyMsg "q") = Some (NewModel, [Cmd_Quit])
  /\ In Cmd_Quit [Cmd_Quit]
  /\ exists key,
       KeyMsg "q" = KeyMsg key /\ (key = "ctrl+c" \/ key = "q")
       /\ view NewModel = ViewList
       /\ Focused (searchInput NewModel) = false /\ NewModel = NewModel.
Proof.
  intros rt.
  assert (HU : Update 0 NewModel (KeyMsg "q") = Some (NewModel, [Cmd_Quit]))
    by reflexivity.
  assert (Hq : In Cmd_Quit [Cmd_Quit]) by (now left).
  split; [exact HU|]. split; [exact Hq|].
  exact (quit_only_from_list 0 NewModel (KeyMsg "q") NewModel [Cmd_Quit] HU Hq).
Defined.

Lemma keys_change_only_selection_witness :
  let rt := Examples.ascii_runtime in
  let rs := [Examples.sample "a" 1 false; Examples.sample "b" 2 false] in
  let m := set_loading false (set_filteredRepos rs (set_repos rs NewModel)) in
  exists m',
    Update 0 m (KeyMsg " ") = Some (m', [])
    /\ same_records (repos m') (repos m)
    /\ map Selected (repos m') = [true; false].
Proof.
  intros rt rs m. eexists.
  assert (HU : Update 0 m (KeyMsg " ")
               = Some (fst (default (m, []) (Update 0 m (KeyMsg " "))), []))
    by (vm_compute; reflexivity).
  split; [exact HU|]. split.
  - exact (keys_change_only_selection 0 m " " _ [] HU).
  - vm_compute. reflexivity.
Defined.

Lemma Update_keeps_cursor_valid_witness :
  let rt := Examples.ascii_runtime in
  let rs := [Examples.sample "a" 1 false; Examples.sample "b" 2 false] in
  let m := set_cursor 1 (set_filteredRepos rs (set_repos rs NewModel)) in
  cursor_valid m
  /\ exists m' cmds,
       Update 0 m (KeyMsg "pgup") = Some (m', cmds) /\ cursor_valid m'.
Proof.
  intros rt rs m.
  assert (Hv : cursor_valid m).
  { apply cursor_valid_arith. vm_compute. split; discriminate. }
  split; [exact Hv|].
  apply (Update_keeps_cursor_valid 0 m (KeyMsg "pgup") Hv).
  - vm_compute. split; [discriminate | reflexivity].
  - vm_compute. reflexivity.
Defined.

Lemma confirm_entered_with_selection_witness :
  let rt := Examples.ascii_runtime in
  let rs := [Examples.sample "a" 1 false; Examples.sample "b" 2 false] in
  let m := set_view ViewDetail
             (set_cursor 1 (set_filteredRepos rs (set_repos rs NewModel))) in
  exists m',
    Update 0 m (KeyMsg "a") = Some (m', [])
    /\ view m' = ViewConfirmArchive
    /\ exists r, In r (repos m') /\ Selected r = true.
Proof.
  intros rt rs m. eexists.
  assert (HU : Update 0 m (KeyMsg "a")
               = Some (fst (default (m, []) (Update 0 m (KeyMsg "a"))), []))
    by (vm_compute; reflexivity).
  split; [exact HU|]. split; [vm_compute; reflexivity|].
  apply (confirm_entered_with_selection 0 m "a" _ [] ltac:(reflexivity)
           ltac:(discriminate) ltac:(discriminate) HU).
  left. vm_compute. reflexivity.
Defined.

Lemma deselect_all_clears_witness :
  let rt := Examples.ascii_runtime in
  let rs := [Examples.sample "a" 1 true; Examples.sample "b" 2 false] in
  let m := set_selectedCount 1 (set_filteredRepos rs (set_repos rs NewModel)) in
  exists m',
    Update 0 m (KeyMsg "D") = Some (m', [])
    /\ Forall (fun r => Selected r = false) (repos m')
    /\ Forall (fun r => Selected r = false) (filteredRepos m')
    /\ selectedCount m' = 0.
Proof.
  intros rt rs m.
  destruct (deselect_all_clears 0 m eq_refl eq_refl)
    as (m' & HU & H1 & H2 & H3 & _).
  exists m'. repeat split; assumption.
Defined.

Lemma toggle_selection_syncs_witness :
  let rt := Examples.ascii_runtime in
  let rs := [Examples.sample "a" 1 false; Examples.sample "b" 2 false] in
  let m := set_cursor 1 (set_filteredRepos rs (set_repos rs NewModel)) in
  exists m',
    Update 0 m (KeyMsg "x") = Some (m', [])
    /\ map Selected (repos m') = [false; true]
    /\ map Selected (filteredRepos m') = [false; true]
    /\ selectedCount m' = 1.
Proof.
  intros rt rs m.
  destruct (proj1 (toggle_selection_syncs 0 m "x" eq_refl eq_refl
                     (or_intror eq_refl)))
    as (m' & r & f & HU & Hr & Hf & _ & Hrs & Hfs & Hc);
    [vm_compute; discriminate|].
  exists m'. split; [exact HU|].
  vm_compute in Hr, Hf. injection Hr as <-. injection Hf as <-.
  rewrite Hc, Hrs, Hfs. repeat split.
Defined.

(** ** Further statements on sorting, counting and index lookup *)

(** X5. [Sort] only rearranges: its result is a permutation of its input and
    has the same length, in either direction and for every field. *)
Theorem Sort_keeps_records (l : list Repo) (sortBy : SortField) (desc : bool) :
  Permutation l (Sort l sortBy desc)
  /\ length (Sort l sortBy desc) = length l.
Proof. split; [apply Sort_Permutation | apply Sort_length]. Qed.

(** X13. [updateSelectedCount] stores the number of selected records, a number
    between 0 and the size of the record set, and leaves both slices as
    they are. *)
Theorem updateSelectedCount_counts (m : Model) :
  selectedCount (updateSelectedCount m) = len (List.filter Selected (repos m))
  /\ 0 <= selectedCount (updateSelectedCount m) <= len (repos m)
  /\ repos (updateSelectedCount m) = repos m
  /\ filteredRepos (updateSelectedCount m) = filteredRepos m.
Proof.
  unfold updateSelectedCount. cbn [selectedCount set_selectedCount].
  rewrite count_loop. split; [lia|]. split; [|split; reflexivity].
  unfold len. pose proof (filter_length_le Selected (repos m)). lia.
Qed.

(** X14. [getActualIndex] maps a position of the filtered view to the first
    position of the record set that carries the same identifier; it returns
    -1 exactly when the position is outside the view or no record carries
    the identifier. *)
Theorem getActualIndex_spec (m : Model) (filteredIdx : Z) :
  let idx := getActualIndex m filteredIdx in
  (idx = -1
   /\ (filteredIdx < 0 \/ len (filteredRepos m) <= filteredIdx
       \/ exists f, filteredRepos m !! Z.to_nat filteredIdx = Some f
                    /\ forall r, In r (repos m) -> FullName r <> FullName f))
  \/ (0 <= idx < len (repos m)
      /\ 0 <= filteredIdx < len (filteredRepos m)
      /\ exists f r,
           filteredRepos m !! Z.to_nat filteredIdx = Some f
           /\ repos m !! Z.to_nat idx = Some r
           /\ FullName r = FullName f
           /\ forall j r', (j < Z.to_nat idx)%nat -> repos m !! j = Some r' ->
                           FullName r' <> FullName f).
Proof.
  unfold getActualIndex.
  destruct (Z.ltb_spec filteredIdx 0) as [Hneg|Hpos]; cbn [orb].
  { left. split; [reflexivity | now left]. }
  destruct (Z.leb_spec (len (filteredRepos m)) filteredIdx) as [Hout|Hin].
  { left. split; [reflexivity | right; now left]. }
  destruct (filteredRepos m !! Z.to_nat filteredIdx) as [f|] eqn:Ef.
  - destruct (index_of_name_spec (FullName f) (repos m) 0 ltac:(lia))
      as [[Hk Habs] | (Hr & (r & Hl & En) & Hfirst)].
    + left. split; [exact Hk|]. right; right. exists f. now split.
    + right. rewrite Z.sub_0_r in *. split; [lia|]. split; [lia|].
      exists f, r. repeat split; assumption.
  - exfalso. apply lookup_ge_None in Ef. unfold len in Hin. lia.
Qed.

(** ** Startup, refresh and the default view *)

Lemma StronglySorted_weaken {A} (R S : A -> A -> Prop) (l : list A) :
  (forall a b, R a b -> S a b) -> StronglySorted R l -> StronglySorted S l.
Proof.
  intros HRS H. induction H as [|a l Hl IH Ha]; constructor; [exact IH|].
  eapply List.Forall_impl; [|exact Ha]. intros b. apply HRS.
Qed.

Section StartupMore.
Context {rt : Runtime}.

(** X10. A forced refresh reports an error exactly when the account lookup or
    the fetch failed, with that failure's text.  A background refresh
    produces no message at all exactly when the fetch failed, is never an
    error message, and otherwise carries the very records a forced refresh
    would load. *)
Theorem refresh_outcomes (user : string + string) (f : Fetched) (u : string) :
  (forall e,
      forceRefreshRepos user f = errorMsg e
      <-> user = inl e \/ ((exists v, user = inr v) /\ f = FetchFailed e))
  /\ (refreshRepos f = None <-> exists e, f = FetchFailed e)
  /\ (forall rs,
        refreshRepos f = Some (backgroundRefreshMsg rs)
        <-> forceRefreshRepos (inr u) f = reposLoadedMsg rs u)
  /\ (forall msg, refreshRepos f = Some msg ->
        exists rs, msg = backgroundRefreshMsg rs).
Proof.
  unfold forceRefreshRepos, refreshRepos.
  split; [|split; [|split]].
  - intros e. destruct user as [ue|v]; destruct f as [fe|pages];
      cbn [ListRepos]; split.
    + intros H. left. now injection H as ->.
    + intros [H | [[v Hv] _]]; [now injection H as -> | discriminate Hv].
    + intros H. left. now injection H as ->.
    + intros [H | [[v Hv] _]]; [now injection H as -> | discriminate Hv].
    + intros H. right. split; [now exists v | now injection H as ->].
    + intros [H | [_ H]]; [discriminate H | now injection H as ->].
    + intros H. discriminate H.
    + intros [H | [_ H]]; discriminate H.
  - destruct f as [fe|pages]; cbn [ListRepos]; split.
    + intros _. now exists fe.
    + reflexivity.
    + intros H. discriminate H.
    + intros [e H]. discriminate H.
  - intros rs. destruct f as [fe|pages]; cbn [ListRepos]; split;
      intros H; try discriminate H; injection H as <-; reflexivity.
  - intros msg H. destruct f as [fe|pages]; cbn [ListRepos] in H;
      [discriminate H|]. injection H as <-. eauto.
Qed.

(** X12. Whatever goes wrong with the cache is invisible at startup: unless the
    cache file decoded to a non-nil record list, the startup load is the
    forced refresh; when it did, the records are shown at once and are
    fresh exactly when they are younger than five minutes. *)
Theorem startup_cache_fallback (u : string) (r : cache.Read) (f : Fetched) :
  loadReposWithCache None (inr u) (cache.Load r) f
  = match r with
    | cache.Decoded since (Some rs) =>
        cacheLoadedMsg (Some rs) u (since <? 300000000000)
    | _ => forceRefreshRepos (inr u) f
    end.
Proof.
  destruct r as [e| |e| |since [rs|]]; reflexivity.
Qed.

(** X28. A load folded while the options are the defaults shows exactly the
    unarchived records of the new set, ordered by time of last update. *)
Theorem default_view_shows_unarchived (now : Time) (m : Model)
    (rs : option (list Repo)) (user : string) :
  filterOpts m = DefaultFilterOptions ->
  exists m',
    Update now m (reposLoadedMsg rs user) = Some (m', [])
    /\ Permutation (filteredRepos m')
                   (List.filter (fun r => negb (IsArchived r)) (elems rs))
    /\ StronglySorted (fun a b => UpdatedAt a <= UpdatedAt b)
                      (filteredRepos m').
Proof.
  intros Ho.
  destruct (Update_reposLoaded now m rs user) as (m' & HU & _ & Hf).
  exists m'. split; [exact HU|]. rewrite Hf, Ho. unfold filtered_view.
  cbn [SortBy SortDesc DefaultFilterOptions]. split.
  - rewrite <- (Filter_default now). symmetry. apply Sort_Permutation.
  - eapply StronglySorted_weaken; [|apply (Sort_in_order SortByUpdated true)].
    intros a b H. cbn [in_order] in H. now apply Z.leb_le.
Qed.

(** X29. On the Filter panel [r] puts every option back to its default, empties
    the search text and recomputes the view, which then shows exactly the
    unarchived records; the record set and the screen stay. *)
Theorem filter_reset_restores_defaults (now : Time) (m : Model) :
  view m = ViewFilter ->
  exists m',
    Update now m (KeyMsg "r") = Some (m', [])
    /\ filterOpts m' = DefaultFilterOptions
    /\ Value (searchInput m') = ""
    /\ repos m' = repos m
    /\ view m' = ViewFilter
    /\ Permutation (filteredRepos m')
                   (List.filter (fun r => negb (IsArchived r)) (repos m)).
Proof.
  intros V.
  set (m0 := set_searchInput
               {| Focused := Focused (searchInput m); Value := "" |}
               (set_filterOpts DefaultFilterOptions m)).
  exists (applyFilters now m0). split.
  - cbn [Update]. unfold handleKeyPress. rewrite V.
    rewrite andb_false_r. reflexivity.
  - rewrite applyFilters_filterOpts, applyFilters_repos, applyFilters_view,
      applyFilters_filteredRepos.
    split; [reflexivity|]. split.
    + rewrite applyFilters_unfold, adjustOffset_offset_only. reflexivity.
    + split; [reflexivity|]. split; [exact V|].
      unfold filtered_view. cbn [repos filterOpts m0 set_searchInput set_filterOpts].
      rewrite <- (Filter_default now). symmetry. apply Sort_Permutation.
Qed.
End StartupMore.

Lemma default_view_shows_unarchived_witness :
  let rt := Examples.ascii_runtime in
  let a := Examples.sample "a" 1 false in
  let b := set_IsArchived true (Examples.sample "b" 2 false) in
  let c := Examples.sample "c" 3 false in
  exists m',
    Update 0 NewModel (reposLoadedMsg (Some [a; b; c]) "octo") = Some (m', [])
    /\ Permutation (filteredRepos m') [a; c].
Proof.
  intros rt a b c.
  destruct (default_view_shows_unarchived 0 NewModel (Some [a; b; c]) "octo"
              eq_refl) as (m' & HU & HP & _).
  exists m'. split; [exact HU | exact HP].
Defined.

Lemma filter_reset_restores_defaults_witness :
  let rt := Examples.ascii_runtime in
  let rs := [Examples.sample "a" 1 false] in
  let m := set_view ViewFilter
             (set_filterOpts (set_ShowPublic false DefaultFilterOptions)
                (set_repos rs NewModel)) in
  exists m',
    Update 0 m (KeyMsg "r") = Some (m', [])
    /\ filterOpts m' = DefaultFilterOptions
    /\ Permutation (filteredRepos m') rs.
Proof.
  intros rt rs m.
  destruct (filter_reset_restores_defaults 0 m eq_refl)
    as (m' & HU & Ho & _ & _ & _ & HP).
  exists m'. repeat split; assumption.
Defined.

Lemma cycleSortField_period_witness :
  let m := NewModel in
  (0 < 2 < 6)%nat
  /\ SortBy (filterOpts (Nat.iter 2 cycleSortField m))
     <> SortBy (filterOpts m).
Proof.
  intros m. assert (H : (0 < 2 < 6)%nat) by lia.
  split; [exact H|]. exact (proj2 (cycleSortField_period m) 2%nat H).
Defined.

Lemma cycleInactiveDays_options_witness :
  ~ In 7 [0; 30; 90; 180; 365; 730] /\ cycleInactiveDays 7 = 0.
Proof.
  assert (H : ~ In 7 [0; 30; 90; 180; 365; 730])
    by (cbn; intuition discriminate).
  split; [exact H|].
  destruct (cycleInactiveDays_options 7) as (_ & _ & _ & _ & _ & _ & _ & Hn).
  exact (Hn H).
Defined.

(** ** Selecting all visible records *)
Section SelectAll.
Context {rt : Runtime}.

Lemma same_records_names (l1 l2 : list Repo) :
  same_records l1 l2 -> map FullName l1 = map FullName l2.
Proof.
  unfold same_records. intros H.
  apply (f_equal (map FullName)) in H. rewrite !map_map in H. exact H.
Qed.

Lemma index_of_name_names (name : string) (rs rs' : list Repo) (i : Z) :
  map FullName rs = map FullName rs' ->
  index_of_name name rs i = index_of_name name rs' i.
Proof.
  revert rs' i. induction rs as [|r rs IH]; intros [|r' rs'] i H;
    try discriminate H; [reflexivity|].
  simpl in H. injection H as Hr Hrs. cbn [index_of_name]. rewrite Hr.
  destruct (String.eqb (FullName r') name); [reflexivity|]. now apply IH.
Qed.

(** One iteration of the loop of [A] on a position that holds an
    unarchived record. *)
Lemma select_visible_step_unarchived (m : Model) (i : nat) (f : Repo) :
  filteredRepos m !! i = Some f -> IsArchived f = false ->
  let idx := index_of_name (FullName f) (repos m) 0 in
  filteredRepos (select_visible_step m i)
  = alter (set_Selected true) i (filteredRepos m)
  /\ repos (select_visible_step m i)
     = if 0 <=? idx
       then alter (set_Selected true) (Z.to_nat idx) (repos m)
       else repos m.
Proof.
  intros Hf Ha idx. unfold select_visible_step. rewrite Hf, Ha. cbn [negb].
  assert (Hidx : getActualIndex
                   (set_filteredRepos
                      (alter (set_Selected true) i (filteredRepos m)) m)
                   (Z.of_nat i) = idx).
  { unfold getActualIndex. cbn [filteredRepos set_filteredRepos repos].
    replace (Z.of_nat i <? 0) with false by (symmetry; apply Z.ltb_ge; lia).
    apply lookup_lt_Some in Hf as Hlt.
    replace (len (alter (set_Selected true) i (filteredRepos m)) <=? Z.of_nat i)
      with false
      by (symmetry; apply Z.leb_gt; unfold len; rewrite length_alter; lia).
    cbn [orb]. rewrite Nat2Z.id, list_lookup_alter_eq, Hf. reflexivity. }
  rewrite Hidx. destruct (0 <=? idx); split; reflexivity.
Qed.

Lemma select_visible_step_archived (m : Model) (i : nat) (f : Repo) :
  filteredRepos m !! i = Some f -> IsArchived f = true ->
  select_visible_step m i = m.
Proof. intros Hf Ha. unfold select_visible_step. now rewrite Hf, Ha. Qed.

Lemma alter_selected_monotone (i j : nat) (l : list Repo) (r r' : Repo) :
  l !! j = Some r -> alter (set_Selected true) i l !! j = Some r' ->
  Selected r = true -> Selected r' = true.
Proof.
  intros Hr Hr' Hs. destruct (decide (i = j)) as [->|NE].
  - rewrite list_lookup_alter_eq, Hr in Hr'. now injection Hr' as <-.
  - rewrite list_lookup_alter_ne in Hr' by exact NE. congruence.
Qed.

(** The loop of [A] after its first [n] iterations. *)
Lemma select_visible_prefix (m : Model) (n : nat) :
  (n <= length (filteredRepos m))%nat ->
  let mn := fold_left select_visible_step (seq 0 n) m in
  filteredRepos mn
  = map select_unarchived (take n (filteredRepos m)) ++ drop n (filteredRepos m)
  /\ (forall j r r', repos m !! j = Some r -> repos mn !! j = Some r' ->
                     Selected r = true -> Selected r' = true)
  /\ (forall i f idx,
        (i < n)%nat -> filteredRepos m !! i = Some f -> IsArchived f = false ->
        index_of_name (FullName f) (repos m) 0 = Z.of_nat idx ->
        exists r', repos mn !! idx = Some r' /\ Selected r' = true).
Proof.
  induction n as [|n IH]; intros Hn.
  - cbn [seq fold_left take drop map app]. split; [reflexivity|]. split.
    + intros j r r' H1 H2 Hs. congruence.
    + intros i f idx Hi. lia.
  - destruct IH as (IHf & IHm & IHs); [lia|].
    cbv zeta. rewrite seq_S, fold_left_app. cbn [fold_left Nat.add].
    set (mn := fold_left select_visible_step (seq 0 n) m) in *.
    destruct (lookup_lt_is_Some_2 (filteredRepos m) n ltac:(lia)) as [f Hf].
    assert (Hlen : length (map select_unarchived (take n (filteredRepos m))) = n)
      by (rewrite length_map, length_take; lia).
    assert (Hfn : filteredRepos mn !! n = Some f).
    { rewrite IHf, lookup_app_r by lia. rewrite Hlen, Nat.sub_diag.
      rewrite lookup_drop, Nat.add_0_r. exact Hf. }
    assert (Hnames : map FullName (repos mn) = map FullName (repos m))
      by (apply same_records_names, (select_visible_only m)).
    rewrite (take_S_r _ _ _ Hf), map_app, <- app_assoc. cbn [map app].
    destruct (IsArchived f) eqn:Ha.
    + rewrite (select_visible_step_archived mn n f Hfn Ha).
      split; [|split].
      * rewrite IHf, (drop_S _ _ _ Hf).
        change (select_unarchived f)
          with (if IsArchived f then f else set_Selected true f).
        now rewrite Ha.
      * exact IHm.
      * intros i g idx Hi Hg Hga Hidx.
        assert (i <> n) by (intros ->; congruence).
        apply (IHs i g idx); [lia | assumption..].
    + destruct (select_visible_step_unarchived mn n f Hfn Ha) as [Ef Er].
      rewrite (index_of_name_names _ _ _ _ Hnames) in Er.
      split; [|split].
      * rewrite Ef, IHf, (drop_S _ _ _ Hf).
        rewrite <- Hlen at 1. rewrite <- (Nat.add_0_r (length _)).
        rewrite alter_app_r.
        change (select_unarchived f)
          with (if IsArchived f then f else set_Selected true f).
        now rewrite Ha.
      * intros j r r' H1 H2 Hs. rewrite Er in H2.
        destruct (0 <=? index_of_name (FullName f) (repos m) 0).
        -- destruct (lookup_lt_is_Some_2 (repos mn) j) as [r0 Hr0].
           { apply lookup_lt_Some in H2. now rewrite length_alter in H2. }
           apply (alter_selected_monotone _ _ _ _ _ Hr0 H2).
           now apply (IHm j r r0).
        -- now apply (IHm j r r').
      * intros i g idx Hi Hg Hga Hidx. rewrite Er.
        destruct (decide (i = n)) as [->|NE].
        -- assert (g = f) by congruence. subst g. rewrite Hidx.
           replace (0 <=? Z.of_nat idx) with true
             by (symmetry; apply Z.leb_le; lia).
           rewrite Nat2Z.id, list_lookup_alter_eq.
           destruct (index_of_name_spec (FullName f) (repos m) 0 ltac:(lia))
             as [[Hk _] | (Hr & _)]; [lia|].
           destruct (lookup_lt_is_Some_2 (repos mn) idx) as [r0 Hr0].
           { apply (f_equal (@length string)) in Hnames.
             rewrite !length_map in Hnames. unfold len in Hr. lia. }
           rewrite Hr0. eexists. split; reflexivity.
        -- destruct (IHs i g idx ltac:(lia) Hg Hga Hidx) as (r0 & Hr0 & Hs0).
           destruct (0 <=? index_of_name (FullName f) (repos m) 0);
             [|now exists r0].
           destruct (lookup_lt_is_Some_2
                       (alter (set_Selected true)
                          (Z.to_nat (index_of_name (FullName f) (repos m) 0))
                          (repos mn)) idx) as [r1 Hr1].
           { rewrite length_alter. now apply lookup_lt_Some in Hr0. }
           exists r1. split; [exact Hr1|].
           exact (alter_selected_monotone _ _ _ _ _ Hr0 Hr1 Hs0).
Qed.

(** X30. On the List screen with the search input unfocused, [A] selects
    every unarchived record of the filtered view and leaves the archived
    ones as they are; in the record set it selects, for each unarchived
    record of the view, the first record with the same identifier, never
    clears a flag and changes nothing but flags; the count is the number
    of selected records afterwards. *)
Theorem select_all_visible (now : Time) (m : Model) :
  view m = ViewList -> Focused (searchInput m) = false ->
  exists m',
    Update now m (KeyMsg "A") = Some (m', [])
    /\ filteredRepos m' = map select_unarchived (filteredRepos m)
    /\ same_records (repos m') (repos m)
    /\ (forall j r r', repos m !! j = Some r -> repos m' !! j = Some r' ->
                       Selected r = true -> Selected r' = true)
    /\ (forall f idx,
          In f (filteredRepos m) -> IsArchived f = false ->
          index_of_name (FullName f) (repos m) 0 = Z.of_nat idx ->
          exists r', repos m' !! idx = Some r' /\ Selected r' = true)
    /\ selectedCount m' = len (List.filter Selected (repos m')).
Proof.
  intros V F.
  set (ma := fold_left select_visible_step
               (seq 0 (length (filteredRepos m))) m).
  exists (updateSelectedCount ma). split.
  - cbn [Update]. unfold handleKeyPress. rewrite V, F.
    unfold handleListKeys. rewrite F. reflexivity.
  - destruct (select_visible_prefix m (length (filteredRepos m))
                ltac:(lia)) as (Hf & Hm & Hs).
    fold ma in Hf, Hm, Hs.
    rewrite take_ge, drop_ge, app_nil_r in Hf by lia.
    split; [exact Hf|]. split; [apply (select_visible_only m)|].
    split; [exact Hm|]. split.
    + intros f idx Hin Ha Hidx.
      apply list_elem_of_In, list_elem_of_lookup in Hin as [i Hi].
      apply (Hs i f idx); try assumption. now apply lookup_lt_Some in Hi.
    + rewrite (proj1 (updateSelectedCount_count ma)). reflexivity.
Qed.
End SelectAll.

Lemma select_all_visible_witness :
  let rt := Examples.ascii_runtime in
  let a := Examples.sample "a" 1 false in
  let b := set_IsArchived true (Examples.sample "b" 2 false) in
  let m := set_filteredRepos [b; a] (set_repos [a; b] NewModel) in
  exists m',
    Update 0 m (KeyMsg "A") = Some (m', [])
    /\ map Selected (filteredRepos m') = [false; true]
    /\ exists r', repos m' !! 0%nat = Some r' /\ Selected r' = true.
Proof.
  intros rt a b m.
  destruct (select_all_visible 0 m eq_refl eq_refl)
    as (m' & HU & Hf & _ & _ & Hs & _).
  exists m'. split; [exact HU|]. split; [now rewrite Hf|].
  apply (Hs a 0%nat); [right; now left | reflexivity | reflexivity].
Defined.
